(** * Driver-recruitment application: intake form and admin panel

    A shallow embedding of the server router ([appRouter]), the database
    helpers ([createApplication], [getApplicationById], [listApplications],
    [updateApplicationStatus], [getApplicationStats]) and the form helpers
    ([isValidCPF], [formatCPF], [formatPhone]), with the properties the
    specification states about them.

    Conventions of the embedding:
    - a JavaScript string is a [string]; one [ascii] stands for one
      character, and [length] is the string's [.length];
    - a [Date] is a point in time, an integer count of the unit of the
      [timestamp] columns (microseconds); a row is represented with the
      values of its columns, on which SQL compares, and the date of a
      filter is that point in the same unit (the Invalid Date, and the
      cut to milliseconds the driver makes when it hands a row to
      JavaScript, are not represented);
    - an integer column and a JavaScript number holding an integer are [Z];
      an id handed to the database is meant in the range of the [integer]
      column ([Spec.Int4]): for a number outside it the driver throws,
      which is not represented, so the theorems about an arbitrary id
      state that range;
    - an [async] function that may throw returns a [Result];
    - the PostgreSQL table [applications] is the list of its rows, in
      insertion order, together with the next value of its [serial];
      a query on a connected database answers (failures of the
      connection are not represented), and an insert throws when
      PostgreSQL refuses the values. *)

From Stdlib Require Import String Ascii List ZArith Lia Bool Arith.
From Stdlib Require Import Sorting.Sorted Sorting.Permutation.
Import ListNotations.

Local Open Scope string_scope.

(** ** JavaScript string primitives used by the form helpers *)

Module Js.

(** [\d] without the unicode flag: the ten ASCII digits. *)
Definition isDigit (c : ascii) : bool :=
  let n := nat_of_ascii c in (48 <=? n)%nat && (n <=? 57)%nat.

(** [s.replace(/\D/g, '')] *)
Fixpoint removeNonDigits (s : string) : string :=
  match s with
  | EmptyString => EmptyString
  | String c rest =>
      if isDigit c then String c (removeNonDigits rest)
      else removeNonDigits rest
  end.

(** [s.slice(b, e)] for non-negative indices: both ends are clamped to the
    length, and the result is empty when [e <= b]. *)
Definition slice (b e : nat) (s : string) : string :=
  substring b (e - b) s.

(** [s.slice(b)] *)
Definition sliceFrom (b : nat) (s : string) : string :=
  slice b (String.length s) s.

(** [parseInt(ch)] of a digit character. *)
Definition digitValue (c : ascii) : Z :=
  Z.of_nat (nat_of_ascii c) - 48.

(** [parseInt(s[i])].  [isValidCPF] only reads indices below the length of
    a string of digits, where the result is the digit's value; the [NaN] of
    an index out of range is not represented and reads as 0. *)
Definition parseIntAt (s : string) (i : nat) : Z :=
  match get i s with
  | Some c => digitValue c
  | None => 0
  end.

(** [/^(\d)\1+$/.test(s)]: a digit followed by one or more copies of it,
    and nothing else. *)
Fixpoint allEqualTo (c : ascii) (s : string) : bool :=
  match s with
  | EmptyString => true
  | String c' rest => Ascii.eqb c' c && allEqualTo c rest
  end.

Definition isRepeatedDigit (s : string) : bool :=
  match s with
  | String c (String c' rest) => isDigit c && allEqualTo c (String c' rest)
  | _ => false
  end.

End Js.

(** ** Form helpers (client form and server router) *)

Module Cpf.
Import Js.

Local Open Scope Z_scope.

(** The body of [for (let i = 0; i < n; i++) sum += parseInt(cleanCPF[i]) * (w - i)]
    started from [sum = 0]. *)
Definition weightedLoop (cleanCPF : string) (n : nat) (w : Z) : Z :=
  fold_left (fun sum i => sum + parseIntAt cleanCPF i * (w - Z.of_nat i))
            (seq 0 n) 0.

(** [remainder = (sum * 10) % 11; if (remainder === 10 || remainder === 11) remainder = 0] *)
Definition remainderOf (sum : Z) : Z :=
  let remainder := Z.rem (sum * 10) 11 in
  if (remainder =? 10) || (remainder =? 11) then 0 else remainder.

Definition isValidCPF (cpf : string) : bool :=
  let cleanCPF := removeNonDigits cpf in
  if negb (String.length cleanCPF =? 11)%nat then false
  else if isRepeatedDigit cleanCPF then false
  else
    let remainder := remainderOf (weightedLoop cleanCPF 9 10) in
    if negb (remainder =? parseIntAt cleanCPF 9) then false
    else
      let remainder := remainderOf (weightedLoop cleanCPF 10 11) in
      if negb (remainder =? parseIntAt cleanCPF 10) then false
      else true.

Definition formatCPF (value : string) : string :=
  let digits := slice 0 11 (removeNonDigits value) in
  if (String.length digits <=? 3)%nat then digits
  else if (String.length digits <=? 6)%nat then
    slice 0 3 digits ++ "." ++ sliceFrom 3 digits
  else if (String.length digits <=? 9)%nat then
    slice 0 3 digits ++ "." ++ slice 3 6 digits ++ "." ++ sliceFrom 6 digits
  else
    slice 0 3 digits ++ "." ++ slice 3 6 digits ++ "."
      ++ slice 6 9 digits ++ "-" ++ sliceFrom 9 digits.

Definition formatPhone (value : string) : string :=
  let digits := slice 0 11 (removeNonDigits value) in
  if (String.length digits <=? 2)%nat then digits
  else if (String.length digits <=? 7)%nat then
    "(" ++ slice 0 2 digits ++ ") " ++ sliceFrom 2 digits
  else
    "(" ++ slice 0 2 digits ++ ") " ++ slice 2 7 digits ++ "-"
      ++ sliceFrom 7 digits.

(** *** The checksum as the specification words it *)

(** The digits that remain once every other character is removed. *)
Fixpoint digitsOf (s : string) : list Z :=
  match s with
  | EmptyString => []
  | String c rest =>
      if isDigit c then digitValue c :: digitsOf rest else digitsOf rest
  end.

(** [sum over i = 0 .. n-1 of digit[i] * (w - i)] *)
Fixpoint weightedSum (d : list Z) (n : nat) (w : Z) : Z :=
  match n with
  | O => 0
  | S k => weightedSum d k w + nth k d 0 * (w - Z.of_nat k)
  end.

(** [(sum * 10) mod 11], with 10 and 11 mapped to 0. *)
Definition checkDigit (sum : Z) : Z :=
  let r := (sum * 10) mod 11 in
  if Z.eq_dec r 10 then 0 else if Z.eq_dec r 11 then 0 else r.

Definition ValidCPF (cpf : string) : Prop :=
  let d := digitsOf cpf in
  List.length d = 11%nat
  /\ ~ (forall i j, (i < 11)%nat -> (j < 11)%nat -> nth i d 0 = nth j d 0)
  /\ nth 9 d 0 = checkDigit (weightedSum d 9 10)
  /\ nth 10 d 0 = checkDigit (weightedSum d 10 11).

End Cpf.

(** ** The database schema (drizzle [pgTable] declarations) *)

Module Schema.

Inductive Role := user | admin.
Inductive Availability := imediata | dias_15 | dias_30.
Inductive PreferredSchedule := manha | tarde | noite | integral | flexivel.
Inductive Status := pendente | em_analise | aprovado | rejeitado.

(** A point in time, in the unit of the [timestamp] columns. *)
Definition Date := Z.

(** A row of [users]; only the columns the router reads are kept. *)
Record User := mkUser {
  userId : Z;
  openId : string;
  role : Role
}.

(** [typeof applications.$inferSelect]; a nullable column is an [option]. *)
Record Application := mkApplication {
  id : Z;
  fullName : string;
  phone : string;
  email : option string;
  cpf : string;
  city : string;
  state : string;
  vehicleTypes : list string;
  experienceYears : Z;
  availability : Availability;
  hasPendingFines : bool;
  acceptsLongTrips : bool;
  preferredSchedule : PreferredSchedule;
  hasExperienceWithCargo : bool;
  hasExperienceWithPassengers : bool;
  notes : option string;
  status : Status;
  createdAt : Date;
  updatedAt : Date
}.

Definition Role_eqb (a b : Role) : bool :=
  match a, b with user, user | admin, admin => true | _, _ => false end.

Definition Availability_eqb (a b : Availability) : bool :=
  match a, b with
  | imediata, imediata | dias_15, dias_15 | dias_30, dias_30 => true
  | _, _ => false
  end.

Definition Status_eqb (a b : Status) : bool :=
  match a, b with
  | pendente, pendente | em_analise, em_analise
  | aprovado, aprovado | rejeitado, rejeitado => true
  | _, _ => false
  end.

End Schema.

(** [typeof applications.$inferInsert]: a column with a default may be left
    out ([None]).  The optional [id] is not represented: no caller supplies
    one, and the [serial] assigns it. *)
Module Insert.
Import Schema.
Record t := mk {
  fullName : string;
  phone : string;
  email : option string;
  cpf : string;
  city : string;
  state : string;
  vehicleTypes : list string;
  experienceYears : Z;
  availability : Availability;
  hasPendingFines : option bool;
  acceptsLongTrips : option bool;
  preferredSchedule : PreferredSchedule;
  hasExperienceWithCargo : option bool;
  hasExperienceWithPassengers : option bool;
  notes : option string;
  status : option Status;
  createdAt : option Date;
  updatedAt : option Date
}.
End Insert.

(** ** Exceptions, results and the server state *)

Module Effects.
Import Schema.

Inductive TRPCCode := FORBIDDEN | NOT_FOUND.

Inductive Exception :=
| TRPCError (code : TRPCCode) (message : string)  (* new TRPCError({ code, message }) *)
| Error (message : string)                        (* new Error(message) *)
| InputRejected       (* the input failed the procedure's zod schema *)
| Unauthenticated     (* thrown by protectedProcedure *)
| DatabaseError.      (* thrown by the PostgreSQL driver *)

Inductive Result (A : Type) :=
| Ok (a : A)
| Throw (e : Exception).
Arguments Ok {A} a.
Arguments Throw {A} e.

(** The table [applications] and the sequence behind its [serial] id. *)
Record Database := mkDatabase {
  rows : list Application;
  nextId : Z
}.

(** [connected] is false when [getDb()] resolves to [null] (no
    [DATABASE_URL], or the pool could not be created). *)
Record Server := mkServer {
  connected : bool;
  database : Database
}.

(** A computation of the server: it reads and writes the server state and
    either returns or throws. *)
Definition M (A : Type) : Type := Server -> Result A * Server.

Definition ret {A} (a : A) : M A := fun st => (Ok a, st).

Definition throw {A} (e : Exception) : M A := fun st => (Throw e, st).

Definition bind {A B} (m : M A) (k : A -> M B) : M B :=
  fun st =>
    match m st with
    | (Ok a, st') => k a st'
    | (Throw e, st') => (Throw e, st')
    end.

Notation "x <- m ;; k" := (bind m (fun x => k))
  (at level 61, m at next level, right associativity).

End Effects.

(** ** The queries drizzle sends to PostgreSQL *)

Module Pg.
Import Schema Effects.

Local Open Scope Z_scope.

(** What a [varchar(n)] column holds of a value once the insert is
    accepted: its first [n] characters.  PostgreSQL stores a value of at
    most [n] characters as it is, cuts a longer one whose excess is spaces,
    and refuses any other. *)
Definition varchar (n : nat) (value : string) : string := substring 0 n value.

(** What [insert(applications).values(data)] stores: the [varchar] columns
    hold the values cut to their declared lengths, the columns left out
    take their defaults ([false], ['pendente'], [now()]), and the id is
    the next value of the sequence. *)
Definition rowOf (now : Date) (newId : Z) (data : Insert.t) : Application :=
  {| id := newId;
     fullName := varchar 255 (Insert.fullName data);
     phone := varchar 20 (Insert.phone data);
     email := option_map (varchar 320) (Insert.email data);
     cpf := varchar 14 (Insert.cpf data);
     city := varchar 100 (Insert.city data);
     state := varchar 2 (Insert.state data);
     vehicleTypes := Insert.vehicleTypes data;
     experienceYears := Insert.experienceYears data;
     availability := Insert.availability data;
     hasPendingFines :=
       match Insert.hasPendingFines data with Some b => b | None => false end;
     acceptsLongTrips :=
       match Insert.acceptsLongTrips data with Some b => b | None => false end;
     preferredSchedule := Insert.preferredSchedule data;
     hasExperienceWithCargo :=
       match Insert.hasExperienceWithCargo data with Some b => b | None => false end;
     hasExperienceWithPassengers :=
       match Insert.hasExperienceWithPassengers data with Some b => b | None => false end;
     notes := Insert.notes data;
     status :=
       match Insert.status data with Some s => s | None => pendente end;
     createdAt :=
       match Insert.createdAt data with Some d => d | None => now end;
     updatedAt :=
       match Insert.updatedAt data with Some d => d | None => now end |}.

Section Insert.

(** PostgreSQL's check of the values against the column types
    ([varchar] lengths, [integer] range); the insert throws where it is
    false, and stores [rowOf] where it is true.  It belongs to the
    database, not to this repository. *)
Variable columnsAccept : Insert.t -> bool.

(** The database clock read by [defaultNow()]. *)
Variable now : Date.

(** [db.insert(applications).values(data).returning()], first row. *)
Definition insertReturning (data : Insert.t) : M Application :=
  fun st =>
    if columnsAccept data then
      let d := database st in
      let row := rowOf now (nextId d) data in
      (Ok row,
       {| connected := connected st;
          database := {| rows := (rows d ++ [row])%list;
                         nextId := nextId d + 1 |} |})
    else (Throw DatabaseError, st).

End Insert.

(** [db.select().from(applications).where(cond)] *)
Definition selectWhere (cond : Application -> bool) : M (list Application) :=
  fun st => (Ok (filter cond (rows (database st))), st).

(** [ORDER BY created_at DESC].  Rows with equal [createdAt] stay in table
    order; PostgreSQL leaves their order open. *)
Fixpoint insertDesc (a : Application) (l : list Application) : list Application :=
  match l with
  | [] => [a]
  | b :: rest =>
      if createdAt b <=? createdAt a then a :: b :: rest
      else b :: insertDesc a rest
  end.

Definition orderByCreatedAtDesc (l : list Application) : list Application :=
  fold_right insertDesc [] l.

(** [db.select().from(applications).where(cond).orderBy(desc(applications.createdAt))] *)
Definition selectWhereOrderByDesc (cond : Application -> bool)
  : M (list Application) :=
  fun st => (Ok (orderByCreatedAtDesc (filter cond (rows (database st)))), st).

(** [db.update(applications).set({ status }).where(cond)] *)
Definition setStatus (s : Status) (a : Application) : Application :=
  {| id := id a; fullName := fullName a; phone := phone a; email := email a;
     cpf := cpf a; city := city a; state := state a;
     vehicleTypes := vehicleTypes a; experienceYears := experienceYears a;
     availability := availability a; hasPendingFines := hasPendingFines a;
     acceptsLongTrips := acceptsLongTrips a;
     preferredSchedule := preferredSchedule a;
     hasExperienceWithCargo := hasExperienceWithCargo a;
     hasExperienceWithPassengers := hasExperienceWithPassengers a;
     notes := notes a; status := s;
     createdAt := createdAt a; updatedAt := updatedAt a |}.

Definition updateSetStatus (s : Status) (cond : Application -> bool) : M unit :=
  fun st =>
    let d := database st in
    (Ok tt,
     {| connected := connected st;
        database :=
          {| rows := map (fun a => if cond a then setStatus s a else a) (rows d);
             nextId := nextId d |} |}).

(** The operators of drizzle used in the conditions. *)
Definition always : Application -> bool := fun _ => true.

Definition and_ (conditions : list (Application -> bool)) : Application -> bool :=
  fun a => forallb (fun c => c a) conditions.

End Pg.

(** ** The database helpers of the server *)

Module Db.
Import Schema Effects Pg.

Local Open Scope Z_scope.

(** [getDb()]: the handle, or [null] (here [false]). *)
Definition getDb : M bool := fun st => (Ok (connected st), st).

Definition notAvailable {A} : M A := throw (Error "Database not available").

Section CreateApplication.

Variable columnsAccept : Insert.t -> bool.
Variable now : Date.

Definition createApplication (data : Insert.t) : M Application :=
  db <- getDb ;;
  if negb db then notAvailable
  else insertReturning columnsAccept now data.

End CreateApplication.

(** [const [application] = await db.select()...where(eq(applications.id, id))]:
    the first row of the result, [undefined] when there is none.  The id is
    meant in the range of the [integer] column; the error the driver throws
    for a number outside it is not represented. *)
Definition getApplicationById (id_ : Z) : M (option Application) :=
  db <- getDb ;;
  if negb db then notAvailable
  else
    result <- selectWhere (fun a => id a =? id_) ;;
    ret (hd_error result).

(** The optional argument of [listApplications]. *)
Record Filters := mkFilters {
  vehicleType : option string;
  f_availability : option Availability;
  startDate : option Date;
  endDate : option Date
}.

(** Truthiness of an optional string ([if (filters?.vehicleType)]):
    [undefined] and the empty string are falsy. *)
Definition truthy (s : option string) : bool :=
  match s with
  | Some v => negb (v =? "")%string
  | None => false
  end.

(** [array.includes(v)] on an array of strings. *)
Definition includes (l : list string) (v : string) : bool :=
  existsb (fun x => (x =? v)%string) l.

Definition listApplications (filters : option Filters) : M (list Application) :=
  db <- getDb ;;
  if negb db then notAvailable
  else
    let conditions : list (Application -> bool) := [] in
    let conditions :=
      match filters with
      | Some {| f_availability := Some av |} =>
          (conditions ++ [fun a => Availability_eqb (availability a) av])%list
      | _ => conditions
      end in
    let conditions :=
      match filters with
      | Some {| startDate := Some d |} =>
          (conditions ++ [fun a => d <=? createdAt a])%list
      | _ => conditions
      end in
    let conditions :=
      match filters with
      | Some {| endDate := Some d |} =>
          (conditions ++ [fun a => createdAt a <=? d])%list
      | _ => conditions
      end in
    results <-
      (if (0 <? List.length conditions)%nat
       then selectWhereOrderByDesc (and_ conditions)
       else selectWhereOrderByDesc always) ;;
    match filters with
    | Some {| vehicleType := Some v |} =>
        if truthy (Some v)
        then ret (filter (fun app => includes (vehicleTypes app) v) results)
        else ret results
    | _ => ret results
    end.

(** The id is meant in the range of the [integer] column, as for
    [getApplicationById]. *)
Definition updateApplicationStatus (id_ : Z) (status_ : Status) : M unit :=
  db <- getDb ;;
  if negb db then notAvailable
  else updateSetStatus status_ (fun a => id a =? id_).

Module Stats.
Record t := mk {
  total : Z;
  pendente : Z;
  em_analise : Z;
  aprovado : Z;
  rejeitado : Z
}.
End Stats.

(** [allApplications.filter(a => a.status === s).length] *)
Definition countStatus (s : Status) (allApplications : list Application) : Z :=
  Z.of_nat (List.length (filter (fun a => Status_eqb (status a) s) allApplications)).

Definition getApplicationStats : M Stats.t :=
  db <- getDb ;;
  if negb db then notAvailable
  else
    allApplications <- selectWhere always ;;
    ret {| Stats.total := Z.of_nat (List.length allApplications);
           Stats.pendente := countStatus pendente allApplications;
           Stats.em_analise := countStatus em_analise allApplications;
           Stats.aprovado := countStatus aprovado allApplications;
           Stats.rejeitado := countStatus rejeitado allApplications |}.

End Db.

(** ** The tRPC router of the server *)

Module Ctx.
Import Schema.
(** [TrpcContext]; [req] and [res] serve [auth.logout] only and are left out. *)
Record t := mk { user : option User }.
End Ctx.

Module SubmitInput.
Import Schema.
(** The shape [applications.submit] parses; an optional key is an [option]. *)
Record t := mk {
  fullName : string;
  phone : string;
  email : option string;
  cpf : string;
  city : string;
  state : string;
  vehicleTypes : list string;
  experienceYears : Z;
  availability : Availability;
  hasPendingFines : bool;
  acceptsLongTrips : bool;
  preferredSchedule : PreferredSchedule;
  hasExperienceWithCargo : bool;
  hasExperienceWithPassengers : bool;
  notes : option string
}.
End SubmitInput.

Module SubmitOutput.
Record t := mk { success : bool; id : Z }.
End SubmitOutput.

Module UpdateStatusInput.
Import Schema.
Record t := mk { id : Z; status : Status }.
End UpdateStatusInput.

Module UpdateStatusOutput.
Record t := mk { success : bool }.
End UpdateStatusOutput.

Module ListInput.
Import Schema.
Record t := mk {
  vehicleType : option string;
  availability : option Availability;
  startDate : option string;
  endDate : option string
}.
End ListInput.

Module Router.
Import Schema Effects Db.

Local Open Scope Z_scope.

(** [publicProcedure]: no middleware. *)
Definition publicProcedure {O} (ctx : Ctx.t) (next : M O) : M O := next.

(** Modelled from the spec: [protectedProcedure] of [server/_core/trpc.ts],
    which is not among the sources.  The specification has administrators
    authenticate, and an unauthenticated caller of an admin procedure fail
    (so does the test "should reject unauthenticated users"): the
    middleware throws when the context has no user and otherwise hands the
    user on. *)
Definition protectedProcedure {O} (ctx : Ctx.t) (next : User -> M O) : M O :=
  match Ctx.user ctx with
  | None => throw Unauthenticated
  | Some u => next u
  end.

Definition adminProcedure {O} (ctx : Ctx.t) (next : M O) : M O :=
  protectedProcedure ctx (fun user_ =>
    if negb (Role_eqb (role user_) admin)
    then throw (TRPCError FORBIDDEN "Acesso restrito a administradores")
    else next).

(** [.input(schema)]: the resolver runs on an input the schema accepts. *)
Definition withInput {I O} (schema : I -> bool) (resolver : I -> M O) (input : I)
  : M O :=
  if schema input then resolver input else throw InputRejected.

(** [value || null] on an optional string. *)
Definition orNull (value : option string) : option string :=
  if truthy value then value else None.

(** [z.array(z.string()).min(1, ...)] *)
Definition vehicleTypesSchema (v : list string) : bool :=
  (1 <=? List.length v)%nat.

Module applications.

Section Procedures.

(** [z.string().email()]: zod's test of the e-mail format. *)
Variable isEmail : string -> bool.
(** PostgreSQL's check of an inserted row, and its clock. *)
Variable columnsAccept : Insert.t -> bool.
Variable now : Date.
(** [new Date(s)] on the date strings the panel sends. *)
Variable newDate : string -> Date.

(** [z.string().email("Email inválido").optional().or(z.literal(""))] *)
Definition emailSchema (e : option string) : bool :=
  match e with
  | None => true
  | Some s => isEmail s || (s =? "")%string
  end.

Definition submitInputSchema (input : SubmitInput.t) : bool :=
  (3 <=? String.length (SubmitInput.fullName input))%nat
  && (10 <=? String.length (SubmitInput.phone input))%nat
  && emailSchema (SubmitInput.email input)
  && Cpf.isValidCPF (SubmitInput.cpf input)
  && (2 <=? String.length (SubmitInput.city input))%nat
  && (String.length (SubmitInput.state input) =? 2)%nat
  && vehicleTypesSchema (SubmitInput.vehicleTypes input)
  && (0 <=? SubmitInput.experienceYears input).

(** The object handed to [createApplication]. *)
Definition applicationOf (input : SubmitInput.t) : Insert.t :=
  {| Insert.fullName := SubmitInput.fullName input;
     Insert.phone := SubmitInput.phone input;
     Insert.email := orNull (SubmitInput.email input);
     Insert.cpf := SubmitInput.cpf input;
     Insert.city := SubmitInput.city input;
     Insert.state := SubmitInput.state input;
     Insert.vehicleTypes := SubmitInput.vehicleTypes input;
     Insert.experienceYears := SubmitInput.experienceYears input;
     Insert.availability := SubmitInput.availability input;
     Insert.hasPendingFines := Some (SubmitInput.hasPendingFines input);
     Insert.acceptsLongTrips := Some (SubmitInput.acceptsLongTrips input);
     Insert.preferredSchedule := SubmitInput.preferredSchedule input;
     Insert.hasExperienceWithCargo :=
       Some (SubmitInput.hasExperienceWithCargo input);
     Insert.hasExperienceWithPassengers :=
       Some (SubmitInput.hasExperienceWithPassengers input);
     Insert.notes := orNull (SubmitInput.notes input);
     Insert.status := None;
     Insert.createdAt := None;
     Insert.updatedAt := None |}.

(** The [console.log] of the resolver is not represented. *)
Definition submitResolver (input : SubmitInput.t) : M SubmitOutput.t :=
  application <- createApplication columnsAccept now (applicationOf input) ;;
  ret {| SubmitOutput.success := true; SubmitOutput.id := id application |}.

Definition submit (ctx : Ctx.t) (input : SubmitInput.t) : M SubmitOutput.t :=
  publicProcedure ctx (withInput submitInputSchema submitResolver input).

(** [input.startDate ? new Date(input.startDate) : undefined] *)
Definition dateOf (s : option string) : option Date :=
  match s with
  | Some v => if truthy (Some v) then Some (newDate v) else None
  | None => None
  end.

Definition listResolver (input : option ListInput.t) : M (Datatypes.list Application) :=
  let filters :=
    match input with
    | Some i =>
        Some {| vehicleType := ListInput.vehicleType i;
                f_availability := ListInput.availability i;
                startDate := dateOf (ListInput.startDate i);
                endDate := dateOf (ListInput.endDate i) |}
    | None => None
    end in
  listApplications filters.

Definition list (ctx : Ctx.t) (input : option ListInput.t)
  : M (Datatypes.list Application) :=
  adminProcedure ctx (listResolver input).

Definition getByIdResolver (id_ : Z) : M Application :=
  application <- getApplicationById id_ ;;
  match application with
  | None => throw (TRPCError NOT_FOUND "Candidatura não encontrada")
  | Some a => ret a
  end.

Definition getById (ctx : Ctx.t) (id_ : Z) : M Application :=
  adminProcedure ctx (getByIdResolver id_).

Definition updateStatusResolver (input : UpdateStatusInput.t)
  : M UpdateStatusOutput.t :=
  _ <- updateApplicationStatus (UpdateStatusInput.id input)
         (UpdateStatusInput.status input) ;;
  ret {| UpdateStatusOutput.success := true |}.

Definition updateStatus (ctx : Ctx.t) (input : UpdateStatusInput.t)
  : M UpdateStatusOutput.t :=
  adminProcedure ctx (updateStatusResolver input).

Definition statsResolver : M Stats.t := getApplicationStats.

Definition stats (ctx : Ctx.t) : M Stats.t :=
  adminProcedure ctx statsResolver.

End Procedures.

End applications.

End Router.

(** ** The properties, as the specification words them *)

Module Spec.
Import Schema Effects Db.

Local Open Scope Z_scope.


(** The same, where an empty vehicle-type string counts as omitted. *)
Definition SatisfiesGiven (filters : option Filters) (a : Application) : Prop :=
  forall f, filters = Some f ->
    (forall d, startDate f = Some d -> d <= createdAt a)
    /\ (forall d, endDate f = Some d -> createdAt a <= d)
    /\ (forall av, f_availability f = Some av -> availability a = av)
    /\ (forall v, vehicleType f = Some v -> v <> ""%string ->
          In v (vehicleTypes a)).

(** [SatisfiesGiven] as a test on a row. *)
Definition whenGiven {A} (o : option A) (test : A -> bool) : bool :=
  match o with
  | Some x => test x
  | None => true
  end.

Definition satisfiesGiven (filters : option Filters) (a : Application) : bool :=
  match filters with
  | None => true
  | Some f =>
      whenGiven (startDate f) (fun d => d <=? createdAt a)
      && whenGiven (endDate f) (fun d => createdAt a <=? d)
      && whenGiven (f_availability f)
           (fun av => Availability_eqb (availability a) av)
      && whenGiven (vehicleType f)
           (fun v => (v =? "")%string
                     || if in_dec string_dec v (vehicleTypes a) then true else false)
  end.




(** The numbers the [integer] column [id] accepts. *)
Definition Int4 (n : Z) : Prop := -2147483648 <= n <= 2147483647.

(** Newest first. *)
Definition NewestFirst (l : list Application) : Prop :=
  StronglySorted (fun a b => createdAt b <= createdAt a) l.

Definition Status_eq_dec (a b : Status) : {a = b} + {a <> b}.
Proof. decide equality. Defined.

(** The number of applications with a given status. *)
Definition numberWithStatus (s : Status) (l : list Application) : Z :=
  Z.of_nat (count_occ Status_eq_dec (map status l) s).

(** The tag set of the glossary. *)
Definition vehicleTags : list string :=
  ["moto"; "carro"; "van"; "caminhao"; "onibus"]%string.

(** The stored applications. *)
Definition stored (st : Server) : list Application := rows (database st).

(** The primary key: no two rows share an id, and the sequence is ahead of
    every id in the table. *)
Definition WellFormed (d : Database) : Prop :=
  NoDup (map id (rows d)) /\ Forall (fun a => id a < nextId d) (rows d).

End Spec.

(** ** The fixtures of [applications.test.ts] *)

Module Fixtures.
Import Schema Effects Db.

Local Open Scope Z_scope.

Definition createPublicContext : Ctx.t := {| Ctx.user := None |}.

Definition createAdminContext : Ctx.t :=
  {| Ctx.user := Some {| userId := 1; openId := "admin-user"; role := admin |} |}.

Definition createUserContext : Ctx.t :=
  {| Ctx.user := Some {| userId := 2; openId := "regular-user"; role := user |} |}.

(** The input of "should submit a new application successfully". *)
Definition submission : SubmitInput.t :=
  {| SubmitInput.fullName := "Joao Silva";
     SubmitInput.phone := "(11) 99999-9999";
     SubmitInput.email := Some "joao@email.com";
     SubmitInput.cpf := "529.982.247-25";
     SubmitInput.city := "Sao Paulo";
     SubmitInput.state := "SP";
     SubmitInput.vehicleTypes := ["caminhao"; "carro"]%string;
     SubmitInput.experienceYears := 5;
     SubmitInput.availability := imediata;
     SubmitInput.hasPendingFines := false;
     SubmitInput.acceptsLongTrips := true;
     SubmitInput.preferredSchedule := integral;
     SubmitInput.hasExperienceWithCargo := true;
     SubmitInput.hasExperienceWithPassengers := false;
     SubmitInput.notes := Some "Tenho experiencia com cargas pesadas" |}.

(** The same submission with other vehicle types. *)
Definition withVehicleTypes (v : list string) (i : SubmitInput.t) : SubmitInput.t :=
  {| SubmitInput.fullName := SubmitInput.fullName i;
     SubmitInput.phone := SubmitInput.phone i;
     SubmitInput.email := SubmitInput.email i;
     SubmitInput.cpf := SubmitInput.cpf i;
     SubmitInput.city := SubmitInput.city i;
     SubmitInput.state := SubmitInput.state i;
     SubmitInput.vehicleTypes := v;
     SubmitInput.experienceYears := SubmitInput.experienceYears i;
     SubmitInput.availability := SubmitInput.availability i;
     SubmitInput.hasPendingFines := SubmitInput.hasPendingFines i;
     SubmitInput.acceptsLongTrips := SubmitInput.acceptsLongTrips i;
     SubmitInput.preferredSchedule := SubmitInput.preferredSchedule i;
     SubmitInput.hasExperienceWithCargo := SubmitInput.hasExperienceWithCargo i;
     SubmitInput.hasExperienceWithPassengers :=
       SubmitInput.hasExperienceWithPassengers i;
     SubmitInput.notes := SubmitInput.notes i |}.

(** A submission with no e-mail, no notes, and a vehicle type that is
    not one of the tags of the form. *)
Definition anonymous : SubmitInput.t :=
  {| SubmitInput.fullName := "Joao Silva";
     SubmitInput.phone := "(11) 99999-9999";
     SubmitInput.email := None;
     SubmitInput.cpf := "529.982.247-25";
     SubmitInput.city := "Sao Paulo";
     SubmitInput.state := "SP";
     SubmitInput.vehicleTypes := ["aviao"]%string;
     SubmitInput.experienceYears := 5;
     SubmitInput.availability := imediata;
     SubmitInput.hasPendingFines := false;
     SubmitInput.acceptsLongTrips := true;
     SubmitInput.preferredSchedule := integral;
     SubmitInput.hasExperienceWithCargo := true;
     SubmitInput.hasExperienceWithPassengers := false;
     SubmitInput.notes := None |}.

(** The input of "should reject invalid CPF". *)
Definition repeatedCpf : SubmitInput.t :=
  {| SubmitInput.fullName := "Joao Silva";
     SubmitInput.phone := "(11) 99999-9999";
     SubmitInput.email := Some "joao@email.com";
     SubmitInput.cpf := "111.111.111-11";
     SubmitInput.city := "Sao Paulo";
     SubmitInput.state := "SP";
     SubmitInput.vehicleTypes := ["caminhao"]%string;
     SubmitInput.experienceYears := 5;
     SubmitInput.availability := imediata;
     SubmitInput.hasPendingFines := false;
     SubmitInput.acceptsLongTrips := true;
     SubmitInput.preferredSchedule := integral;
     SubmitInput.hasExperienceWithCargo := true;
     SubmitInput.hasExperienceWithPassengers := false;
     SubmitInput.notes := None |}.

(** A row as the mocked [./db] of the tests returns it, with a given id,
    vehicle types, status and creation time. *)
Definition row (id_ : Z) (v : list string) (s : Status) (t : Date) : Application :=
  {| id := id_; fullName := "Joao Silva"; phone := "(11) 99999-9999";
     email := Some "joao@email.com"; cpf := "123.456.789-09";
     city := "Sao Paulo"; state := "SP"; vehicleTypes := v;
     experienceYears := 5; availability := imediata;
     hasPendingFines := false; acceptsLongTrips := true;
     preferredSchedule := integral; hasExperienceWithCargo := true;
     hasExperienceWithPassengers := false; notes := None; status := s;
     createdAt := t; updatedAt := t |}.

(** A connected server holding three applications. *)
Definition server : Server :=
  {| connected := true;
     database :=
       {| rows := [ row 1 ["caminhao"; "carro"]%string pendente 1000;
                    row 2 ["moto"]%string em_analise 3000;
                    row 3 ["carro"]%string aprovado 2000 ];
          nextId := 4 |} |}.

(** A row within the declared [varchar] lengths. *)
Definition withinDeclaredLengths (data : Insert.t) : bool :=
  (String.length (Insert.fullName data) <=? 255)%nat
  && (String.length (Insert.phone data) <=? 20)%nat
  && match Insert.email data with
     | Some e => (String.length e <=? 320)%nat
     | None => true
     end
  && (String.length (Insert.cpf data) <=? 14)%nat
  && (String.length (Insert.city data) <=? 100)%nat
  && (String.length (Insert.state data) <=? 2)%nat
  && (Insert.experienceYears data <=? 2147483647).

End Fixtures.

(** ** The candidate's form (client) *)

Module Form.
Import Schema.

(** The ids of [vehicleOptions] (labels and icons left out). *)
Definition vehicleOptions : list string :=
  ["moto"; "carro"; "van"; "caminhao"; "onibus"]%string.

(** [handleVehicleToggle]: the new value of [selectedVehicles], which is
    also written to the form's [vehicleTypes]. *)
Definition handleVehicleToggle (selectedVehicles : list string) (vehicleId : string)
  : list string :=
  if Db.includes selectedVehicles vehicleId
  then filter (fun v => negb (v =? vehicleId)%string) selectedVehicles
  else (selectedVehicles ++ [vehicleId])%list.

(** The clicks of a session, from the empty selection of [useState([])]. *)
Definition toggles (clicks : list string) : list string :=
  fold_left handleVehicleToggle clicks [].

(** [handleCPFChange] and [handlePhoneChange]: the value written to the form. *)
Definition handleCPFChange (value : string) : string := Cpf.formatCPF value.

Definition handlePhoneChange (value : string) : string := Cpf.formatPhone value.

Section FormSchema.

(** [z.string().email()], as for the router. *)
Variable isEmail : string -> bool.

(** [formSchema], the schema behind [zodResolver]; [FormData] has the
    shape of the input of [applications.submit]. *)
Definition formSchema (data : SubmitInput.t) : bool :=
  (3 <=? String.length (SubmitInput.fullName data))%nat
  && (14 <=? String.length (SubmitInput.phone data))%nat
  && Router.applications.emailSchema isEmail (SubmitInput.email data)
  && Cpf.isValidCPF (SubmitInput.cpf data)
  && (2 <=? String.length (SubmitInput.city data))%nat
  && (String.length (SubmitInput.state data) =? 2)%nat
  && Router.vehicleTypesSchema (SubmitInput.vehicleTypes data)
  && (0 <=? SubmitInput.experienceYears data)%Z.

End FormSchema.

End Form.

(** ** The admin panel (client) and the input of [applications.list] as sent *)

Module RawListInput.
(** The JSON of the input of [applications.list]: the availability is a
    string until the schema has parsed it. *)
Record t := mk {
  vehicleType : option string;
  availability : option string;
  startDate : option string;
  endDate : option string
}.
End RawListInput.

Module Panel.
Import Schema Effects Db Router.

(** The state of [useState({ vehicleType, availability, startDate, endDate })]. *)
Record Filters := mkFilters {
  vehicleType : string;
  availability : string;
  startDate : string;
  endDate : string
}.

Definition initialFilters : Filters :=
  {| vehicleType := ""; availability := ""; startDate := ""; endDate := "" |}.

(** [clearFilters] *)
Definition clearFilters (filters : Filters) : Filters := initialFilters.

(** [value || undefined] on a string. *)
Definition orUndefined (value : string) : option string :=
  if truthy (Some value) then Some value else None.

(** The input handed to [trpc.applications.list.useQuery]; the [as] cast
    of the availability does nothing at run time. *)
Definition listQueryInput (filters : Filters) : RawListInput.t :=
  {| RawListInput.vehicleType := orUndefined (vehicleType filters);
     RawListInput.availability := Some (availability filters);
     RawListInput.startDate := orUndefined (startDate filters);
     RawListInput.endDate := orUndefined (endDate filters) |}.

(** [z.enum(["imediata", "15_dias", "30_dias"])] *)
Definition availabilityEnum (s : string) : option Availability :=
  if (s =? "imediata")%string then Some imediata
  else if (s =? "15_dias")%string then Some dias_15
  else if (s =? "30_dias")%string then Some dias_30
  else None.

(** The schema of [applications.list] on an object: every key optional,
    the availability one of the enum's strings. *)
Definition listInputSchema (raw : RawListInput.t) : option ListInput.t :=
  match RawListInput.availability raw with
  | None =>
      Some {| ListInput.vehicleType := RawListInput.vehicleType raw;
              ListInput.availability := None;
              ListInput.startDate := RawListInput.startDate raw;
              ListInput.endDate := RawListInput.endDate raw |}
  | Some s =>
      match availabilityEnum s with
      | Some av =>
          Some {| ListInput.vehicleType := RawListInput.vehicleType raw;
                  ListInput.availability := Some av;
                  ListInput.startDate := RawListInput.startDate raw;
                  ListInput.endDate := RawListInput.endDate raw |}
      | None => None
      end
  end.

Section List.

Variable newDate : string -> Date.

(** [applications.list] on the input as received: the admin gate, then
    the schema, then the resolver. *)
Definition listReceived (ctx : Ctx.t) (raw : option RawListInput.t)
  : M (list Application) :=
  adminProcedure ctx
    match raw with
    | None => applications.listResolver newDate None
    | Some r =>
        match listInputSchema r with
        | Some input => applications.listResolver newDate (Some input)
        | None => throw InputRejected
        end
    end.

End List.

End Panel.

(** ** The [users] table and its helpers *)

Module InsertUser.
Import Schema.
(** The keys of [InsertUser] that [upsertUser] reads.  A key left out is
    [None]; a nullable key that is given is [Some null] or [Some (Some v)]. *)
Record t := mk {
  openId : string;
  name : option (option string);
  email : option (option string);
  loginMethod : option (option string);
  role : option Role
}.
End InsertUser.

Module Users.
Import Effects.

(** [typeof users.$inferSelect] *)
Record User := mkUser {
  id : Z;
  openId : string;
  name : option string;
  email : option string;
  loginMethod : option string;
  role : Schema.Role;
  createdAt : Schema.Date;
  updatedAt : Schema.Date;
  lastSignedIn : Schema.Date
}.

(** The table [users] with its [serial], and whether [getDb()] gives a
    handle. *)
Record Store := mkStore {
  connected : bool;
  table : list User;
  nextId : Z
}.

Definition U (A : Type) : Type := Store -> Result A * Store.

Definition ret {A} (a : A) : U A := fun st => (Ok a, st).

Definition throw {A} (e : Exception) : U A := fun st => (Throw e, st).

Definition bind {A B} (m : U A) (k : A -> U B) : U B :=
  fun st =>
    match m st with
    | (Ok a, st') => k a st'
    | (Throw e, st') => (Throw e, st')
    end.

(** [try { m } catch (error) { handler(error) }] *)
Definition tryCatch {A} (m : U A) (handler : Exception -> U A) : U A :=
  fun st =>
    match m st with
    | (Ok a, st') => (Ok a, st')
    | (Throw e, st') => handler e st'
    end.

Definition getDb : U bool := fun st => (Ok (connected st), st).

(** The object [insertData] of [upsertUser]. *)
Record InsertData := mkInsertData {
  ins_openId : string;
  ins_name : option string;
  ins_email : option string;
  ins_loginMethod : option string;
  ins_role : Schema.Role;
  ins_lastSignedIn : Schema.Date
}.

(** The object [updateData] of [upsertUser]: [Partial<InsertUser>], a key
    that is not set is [None]. *)
Record UpdateData := mkUpdateData {
  upd_lastSignedIn : Schema.Date;
  upd_name : option (option string);
  upd_email : option (option string);
  upd_loginMethod : option (option string);
  upd_role : option Schema.Role
}.

(** [a ?? b] *)
Definition orElse {A} (a : option A) (b : A) : A :=
  match a with
  | Some v => v
  | None => b
  end.

(** The row [UPDATE ... SET] leaves: the keys that are set replace the
    columns, the others stay. *)
Definition applyUpdate (d : UpdateData) (u : User) : User :=
  {| id := id u;
     openId := openId u;
     name := orElse (upd_name d) (name u);
     email := orElse (upd_email d) (email u);
     loginMethod := orElse (upd_loginMethod d) (loginMethod u);
     role := orElse (upd_role d) (role u);
     createdAt := createdAt u;
     updatedAt := updatedAt u;
     lastSignedIn := upd_lastSignedIn d |}.

Section Queries.

(** PostgreSQL's check of the values of an insert and of an update
    against the column types; the statement throws where it is false. *)
Variable insertAccepts : InsertData -> bool.
Variable updateAccepts : UpdateData -> bool.
(** The clock of the server ([new Date()]) and of the database
    ([defaultNow()]). *)
Variable jsNow : Schema.Date.
Variable dbNow : Schema.Date.

(** [db.select().from(users).where(eq(users.openId, openId)).limit(1)] *)
Definition selectByOpenId (openId_ : string) : U (list User) :=
  fun st =>
    (Ok (firstn 1 (filter (fun u => (openId u =? openId_)%string) (table st))),
     st).

(** [db.update(users).set(updateData).where(eq(users.openId, openId))] *)
Definition updateByOpenId (d : UpdateData) (openId_ : string) : U unit :=
  fun st =>
    if updateAccepts d then
      (Ok tt,
       {| connected := connected st;
          table := map (fun u => if (openId u =? openId_)%string
                                 then applyUpdate d u else u) (table st);
          nextId := nextId st |})
    else (Throw DatabaseError, st).

(** [db.insert(users).values(insertData)]: the id is the next value of
    the sequence, [createdAt] and [updatedAt] take [defaultNow()]. *)
Definition insertUser (d : InsertData) : U unit :=
  fun st =>
    if insertAccepts d then
      (Ok tt,
       {| connected := connected st;
          table := (table st ++
                    [ {| id := nextId st;
                         openId := ins_openId d;
                         name := ins_name d;
                         email := ins_email d;
                         loginMethod := ins_loginMethod d;
                         role := ins_role d;
                         createdAt := dbNow;
                         updatedAt := dbNow;
                         lastSignedIn := ins_lastSignedIn d |} ])%list;
          nextId := (nextId st + 1)%Z |})
    else (Throw DatabaseError, st).

Definition updateDataOf (user : InsertUser.t) : UpdateData :=
  {| upd_lastSignedIn := jsNow;
     upd_name := InsertUser.name user;
     upd_email := InsertUser.email user;
     upd_loginMethod := InsertUser.loginMethod user;
     upd_role := InsertUser.role user |}.

Definition insertDataOf (user : InsertUser.t) : InsertData :=
  {| ins_openId := InsertUser.openId user;
     ins_name := orElse (InsertUser.name user) None;
     ins_email := orElse (InsertUser.email user) None;
     ins_loginMethod := orElse (InsertUser.loginMethod user) None;
     ins_role := orElse (InsertUser.role user) Schema.user;
     ins_lastSignedIn := jsNow |}.

(** [upsertUser]; the [console.warn] and [console.error] are not
    represented. *)
Definition upsertUser (user : InsertUser.t) : U unit :=
  if negb (Db.truthy (Some (InsertUser.openId user)))
  then throw (Error "User openId is required for upsert")
  else
    bind getDb (fun db =>
    if negb db then ret tt
    else
      tryCatch
        (bind (selectByOpenId (InsertUser.openId user)) (fun existingUser =>
         if (0 <? List.length existingUser)%nat
         then updateByOpenId (updateDataOf user) (InsertUser.openId user)
         else insertUser (insertDataOf user)))
        (fun error => throw error)).

End Queries.

(** [getUserByOpenId]: [undefined] is [None]. *)
Definition getUserByOpenId (openId_ : string) : U (option User) :=
  bind getDb (fun db =>
  if negb db then ret None
  else
    bind (selectByOpenId openId_) (fun result =>
    ret (if (0 <? List.length result)%nat then hd_error result else None))).

(** The unique constraint on [openId] and the primary key. *)
Definition WellFormed (st : Store) : Prop :=
  NoDup (map openId (table st))
  /\ NoDup (map id (table st))
  /\ Forall (fun u => (id u < nextId st)%Z) (table st).

(** The row with a given [openId], if there is one. *)
Definition lookup (openId_ : string) (st : Store) : option User :=
  hd_error (filter (fun u => (openId u =? openId_)%string) (table st)).

End Users.

(** A store of the users of the tests. *)
Module UserFixtures.
Import Users.

Local Open Scope Z_scope.

Definition store : Store :=
  {| connected := true;
     table := [ {| id := 1; openId := "admin-user"; name := Some "Admin User";
                   email := Some "admin@example.com";
                   loginMethod := Some "manus"; role := Schema.admin;
                   createdAt := 100; updatedAt := 100; lastSignedIn := 100 |};
                {| id := 2; openId := "regular-user"; name := Some "Regular User";
                   email := Some "user@example.com";
                   loginMethod := Some "manus"; role := Schema.user;
                   createdAt := 200; updatedAt := 200; lastSignedIn := 200 |} ];
     nextId := 3 |}.

(** A sign-in that carries a name and nothing else. *)
Definition signIn (openId_ : string) : InsertUser.t :=
  {| InsertUser.openId := openId_;
     InsertUser.name := Some (Some "Nome");
     InsertUser.email := None;
     InsertUser.loginMethod := None;
     InsertUser.role := None |}.

End UserFixtures.

(** The bucket of [getApplicationStats] that counts a status. *)
Module StatsView.
Import Schema Db.
Definition bucket (s : Status) (t : Stats.t) : Z :=
  match s with
  | pendente => Stats.pendente t
  | em_analise => Stats.em_analise t
  | aprovado => Stats.aprovado t
  | rejeitado => Stats.rejeitado t
  end.
End StatsView.

(** * Properties *)

(** ** Facts about the string primitives *)

Module JsFacts.
Import Js.

Lemma removeNonDigits_app (a b : string) :
  removeNonDigits (a ++ b) = removeNonDigits a ++ removeNonDigits b.
Proof.
  induction a as [|c a IH]; simpl; [reflexivity|].
  destruct (isDigit c); simpl; now rewrite IH.
Qed.

Lemma removeNonDigits_skip (c : ascii) (s : string) :
  isDigit c = false -> removeNonDigits (String c s) = removeNonDigits s.
Proof. intros H; simpl; now rewrite H. Qed.

Lemma length_removeNonDigits (s : string) :
  String.length (removeNonDigits s) <= String.length s.
Proof.
  induction s as [|c s IH]; simpl; [lia|].
  destruct (isDigit c); simpl; lia.
Qed.

(** A string that [removeNonDigits] leaves alone is made of digits. *)
Lemma clean_cons (c : ascii) (s : string) :
  removeNonDigits (String c s) = String c s ->
  isDigit c = true /\ removeNonDigits s = s.
Proof.
  simpl; destruct (isDigit c) eqn:E; intros H.
  - split; [reflexivity|congruence].
  - pose proof (length_removeNonDigits s) as L.
    rewrite H in L; simpl in L; lia.
Qed.

Lemma removeNonDigits_idem (s : string) :
  removeNonDigits (removeNonDigits s) = removeNonDigits s.
Proof.
  induction s as [|c s IH]; simpl; [reflexivity|].
  destruct (isDigit c) eqn:E; simpl; [rewrite E, IH|]; auto.
Qed.

Lemma clean_substring (s : string) :
  removeNonDigits s = s ->
  forall n m, removeNonDigits (substring n m s) = substring n m s.
Proof.
  induction s as [|c s IH]; intros H n m.
  - destruct n, m; reflexivity.
  - destruct (clean_cons _ _ H) as [Hc Hs].
    destruct n as [|n]; [destruct m as [|m]|]; simpl; auto.
    now rewrite Hc, IH.
Qed.

Lemma substring_split (s : string) :
  forall n m1 m2,
    substring n m1 s ++ substring (n + m1) m2 s = substring n (m1 + m2) s.
Proof.
  induction s as [|c s IH]; intros n m1 m2.
  - destruct n, m1, m2; reflexivity.
  - destruct n as [|n]; simpl.
    + destruct m1 as [|m1]; simpl.
      * destruct m2; reflexivity.
      * f_equal. apply (IH 0 m1 m2).
    + apply IH.
Qed.

Lemma substring_whole (s : string) :
  forall m, String.length s <= m -> substring 0 m s = s.
Proof.
  induction s as [|c s IH]; intros m H.
  - destruct m; reflexivity.
  - destruct m as [|m]; simpl in *; [lia|].
    f_equal. apply IH. lia.
Qed.

Lemma length_substring (s : string) :
  forall n m, String.length (substring n m s) = Nat.min m (String.length s - n).
Proof.
  induction s as [|c s IH]; intros n m.
  - destruct n, m; reflexivity.
  - destruct n as [|n]; [destruct m as [|m]|]; simpl; try rewrite IH; lia.
Qed.

(** The digits a form helper keeps: [value.replace(/\D/g, '').slice(0, 11)]. *)
Lemma kept_digits_clean (s : string) :
  removeNonDigits (slice 0 11 (removeNonDigits s)) = slice 0 11 (removeNonDigits s).
Proof. apply clean_substring, removeNonDigits_idem. Qed.

Lemma kept_digits_length (s : string) :
  String.length (slice 0 11 (removeNonDigits s)) <= 11.
Proof. unfold slice. rewrite length_substring. lia. Qed.

(** Cutting a string at [k] and gluing the pieces gives it back. *)
Lemma slice_sliceFrom (k e : nat) (s : string) :
  k <= e -> e <= String.length s ->
  slice k e s ++ sliceFrom e s = sliceFrom k s.
Proof.
  intros H1 H2. unfold sliceFrom, slice.
  replace e with (k + (e - k)) at 2 by lia.
  rewrite substring_split. f_equal. lia.
Qed.

Lemma sliceFrom_0 (s : string) : sliceFrom 0 s = s.
Proof. unfold sliceFrom, slice. apply substring_whole. lia. Qed.

Lemma clean_slice (s : string) (b e : nat) :
  removeNonDigits s = s -> removeNonDigits (slice b e s) = slice b e s.
Proof. intros H. now apply clean_substring. Qed.

Lemma clean_sliceFrom (s : string) (b : nat) :
  removeNonDigits s = s -> removeNonDigits (sliceFrom b s) = sliceFrom b s.
Proof. intros H. now apply clean_substring. Qed.

End JsFacts.

(** ** The form helpers *)

Module CpfFacts.
Import Js Cpf JsFacts.

(** The valid and the invalid CPF of [applications.test.ts], and the masks
    on a few inputs. *)
Example isValidCPF_test_cpf : isValidCPF "529.982.247-25" = true.
Proof. reflexivity. Qed.

Example isValidCPF_repeated : isValidCPF "111.111.111-11" = false.
Proof. reflexivity. Qed.

Example formatCPF_partial : formatCPF "5299822" = "529.982.2".
Proof. reflexivity. Qed.

Example formatCPF_full : formatCPF "52998224725999" = "529.982.247-25".
Proof. reflexivity. Qed.

Example formatPhone_full : formatPhone "11999999999" = "(11) 99999-9999".
Proof. reflexivity. Qed.

Example formatPhone_partial : formatPhone "(11) 9" = "(11) 9".
Proof. reflexivity. Qed.

(** The digits kept by the two masks. *)
Local Abbreviation kept s := (slice 0 11 (removeNonDigits s)).

Ltac strip_separators :=
  rewrite ?removeNonDigits_app;
  change (removeNonDigits ".") with "";
  change (removeNonDigits "-") with "";
  change (removeNonDigits "(") with "";
  change (removeNonDigits ") ") with "";
  cbn [append];
  rewrite ?clean_slice, ?clean_sliceFrom by assumption.

Ltac glue :=
  repeat (rewrite slice_sliceFrom by lia);
  apply sliceFrom_0.

Lemma kept_of_clean (d : string) :
  removeNonDigits d = d -> String.length d <= 11 -> kept d = d.
Proof.
  intros Hc Hl. rewrite Hc. unfold slice. now apply substring_whole.
Qed.

Lemma formatCPF_digits (s : string) :
  removeNonDigits (formatCPF s) = kept s.
Proof.
  unfold formatCPF.
  pose proof (kept_digits_clean s) as Hc.
  set (d := slice 0 11 (removeNonDigits s)) in *.
  destruct (String.length d <=? 3)%nat eqn:E3; [exact Hc|].
  apply Nat.leb_gt in E3.
  destruct (String.length d <=? 6)%nat eqn:E6; [strip_separators; glue|].
  apply Nat.leb_gt in E6.
  destruct (String.length d <=? 9)%nat eqn:E9; [strip_separators; glue|].
  apply Nat.leb_gt in E9.
  strip_separators; glue.
Qed.

Lemma formatPhone_digits (s : string) :
  removeNonDigits (formatPhone s) = kept s.
Proof.
  unfold formatPhone.
  pose proof (kept_digits_clean s) as Hc.
  set (d := slice 0 11 (removeNonDigits s)) in *.
  destruct (String.length d <=? 2)%nat eqn:E2; [exact Hc|].
  apply Nat.leb_gt in E2.
  destruct (String.length d <=? 7)%nat eqn:E7; [strip_separators; glue|].
  apply Nat.leb_gt in E7.
  strip_separators; glue.
Qed.

Lemma kept_kept (s : string) : kept (kept s) = kept s.
Proof.
  apply kept_of_clean; [apply kept_digits_clean | apply kept_digits_length].
Qed.

Lemma slice_kept (s : string) : slice 0 11 (kept s) = kept s.
Proof. apply substring_whole, kept_digits_length. Qed.

Lemma formatCPF_kept (s t : string) : kept s = kept t -> formatCPF s = formatCPF t.
Proof. unfold formatCPF. now intros ->. Qed.

Lemma formatPhone_kept (s t : string) :
  kept s = kept t -> formatPhone s = formatPhone t.
Proof. unfold formatPhone. now intros ->. Qed.

(** C10: [formatCPF] and [formatPhone] are idempotent, and the output of
    each is determined by the first 11 digit characters of its input:
    two inputs with the same first 11 digits are formatted alike, and an
    input is formatted like its first 11 digits alone. *)
Theorem masks_idempotent_on_first_11_digits :
  (forall s, formatCPF (formatCPF s) = formatCPF s)
  /\ (forall s, formatPhone (formatPhone s) = formatPhone s)
  /\ (forall s t,
        slice 0 11 (removeNonDigits s) = slice 0 11 (removeNonDigits t) ->
        formatCPF s = formatCPF t /\ formatPhone s = formatPhone t)
  /\ (forall s,
        formatCPF s = formatCPF (slice 0 11 (removeNonDigits s))
        /\ formatPhone s = formatPhone (slice 0 11 (removeNonDigits s))).
Proof.
  repeat split.
  - intros s. apply formatCPF_kept. rewrite formatCPF_digits. apply slice_kept.
  - intros s. apply formatPhone_kept. rewrite formatPhone_digits. apply slice_kept.
  - now apply formatCPF_kept.
  - now apply formatPhone_kept.
  - apply formatCPF_kept. symmetry. apply kept_kept.
  - apply formatPhone_kept. symmetry. apply kept_kept.
Qed.

Lemma masks_idempotent_on_first_11_digits_witness :
  slice 0 11 (removeNonDigits "529.982.247-25")
    = slice 0 11 (removeNonDigits "52998224725-999")
  /\ formatCPF "529.982.247-25" = formatCPF "52998224725-999"
  /\ formatPhone "529.982.247-25" = formatPhone "52998224725-999".
Proof.
  split; [reflexivity|].
  apply (proj1 (proj2 (proj2 masks_idempotent_on_first_11_digits))).
  reflexivity.
Defined.

End CpfFacts.

(** ** The CPF checksum *)

Module ChecksumFacts.
Import Js Cpf JsFacts.

Local Open Scope Z_scope.

Lemma length_digitsOf (s : string) :
  List.length (digitsOf s) = String.length (removeNonDigits s).
Proof.
  induction s as [|c s IH]; simpl; [reflexivity|].
  destruct (isDigit c); simpl; congruence.
Qed.

(** Reading the cleaned string at [i] is reading the [i]-th digit. *)
Lemma parseIntAt_digitsOf (s : string) :
  forall i, parseIntAt (removeNonDigits s) i = nth i (digitsOf s) 0.
Proof.
  induction s as [|c s IH]; intros i.
  - destruct i; reflexivity.
  - simpl. destruct (isDigit c); [|apply IH].
    destruct i as [|i]; [reflexivity|]. apply (IH i).
Qed.

Lemma isDigit_range (c : ascii) :
  isDigit c = true -> 0 <= digitValue c <= 9.
Proof.
  unfold isDigit, digitValue. intros H.
  apply andb_true_iff in H as [H1 H2].
  apply Nat.leb_le in H1, H2. lia.
Qed.

Lemma digitValue_inj (c c' : ascii) : digitValue c = digitValue c' -> c = c'.
Proof.
  unfold digitValue. intros H.
  rewrite <- (ascii_nat_embedding c), <- (ascii_nat_embedding c').
  f_equal. lia.
Qed.

Lemma digitsOf_range (s : string) :
  forall i, 0 <= nth i (digitsOf s) 0 <= 9.
Proof.
  induction s as [|c s IH]; intros i; simpl.
  - destruct i; lia.
  - destruct (isDigit c) eqn:E; [|apply IH].
    destruct i as [|i]; [now apply isDigit_range | apply IH].
Qed.

(** The [for] loop computes the weighted sum. *)
Lemma weightedLoop_sum (s : string) (w : Z) :
  forall n, weightedLoop (removeNonDigits s) n w = weightedSum (digitsOf s) n w.
Proof.
  unfold weightedLoop. induction n as [|n IH]; [reflexivity|].
  rewrite seq_S, fold_left_app, IH. simpl.
  now rewrite parseIntAt_digitsOf.
Qed.

Lemma weightedSum_nonneg (s : string) (w : Z) :
  forall n, Z.of_nat n <= w -> 0 <= weightedSum (digitsOf s) n w.
Proof.
  induction n as [|n IH]; intros H; simpl; [lia|].
  pose proof (digitsOf_range s n). nia.
Qed.

(** JavaScript's [%] agrees with [mod] on the sums the loop produces. *)
Lemma remainderOf_checkDigit (x : Z) : 0 <= x -> remainderOf x = checkDigit x.
Proof.
  intros H. unfold remainderOf, checkDigit.
  rewrite Z.rem_mod_nonneg by lia.
  destruct (Z.eq_dec ((x * 10) mod 11) 10) as [->|N1]; [reflexivity|].
  destruct (Z.eq_dec ((x * 10) mod 11) 11) as [->|N2]; [reflexivity|].
  apply Z.eqb_neq in N1, N2. now rewrite N1, N2.
Qed.

Lemma allEqualTo_spec (c : ascii) (s : string) :
  allEqualTo c s = true <->
  (forall i, (i < String.length s)%nat -> parseIntAt s i = digitValue c).
Proof.
  induction s as [|c' s IH]; simpl.
  - split; [intros _ i Hi; lia | reflexivity].
  - rewrite andb_true_iff, IH. split.
    + intros [Hc Hs] i Hi. apply Ascii.eqb_eq in Hc. subst c'.
      destruct i as [|i]; [reflexivity|]. apply Hs. lia.
    + intros H. split.
      * apply Ascii.eqb_eq, digitValue_inj. apply (H 0%nat). lia.
      * intros i Hi. apply (H (S i)). lia.
Qed.

(** On eleven digits, the regular expression [/^(\d)\1+$/] says that the
    digits are all the same. *)
Lemma isRepeatedDigit_spec (s : string) :
  String.length (removeNonDigits s) = 11%nat ->
  isRepeatedDigit (removeNonDigits s) = true <->
  (forall i j, (i < 11)%nat -> (j < 11)%nat ->
     nth i (digitsOf s) 0 = nth j (digitsOf s) 0).
Proof.
  intros L.
  assert (P : forall i, nth i (digitsOf s) 0 = parseIntAt (removeNonDigits s) i)
    by (intros; symmetry; apply parseIntAt_digitsOf).
  pose proof (removeNonDigits_idem s) as Hc.
  destruct (removeNonDigits s) as [|c0 [|c1 r]] eqn:E; try discriminate L.
  destruct (clean_cons _ _ Hc) as [Hd _].
  unfold isRepeatedDigit. rewrite Hd, andb_true_l, allEqualTo_spec.
  simpl String.length in *. split.
  - intros H i j Hi Hj. rewrite !P.
    assert (Q : forall k, (k < 11)%nat ->
                parseIntAt (String c0 (String c1 r)) k = digitValue c0).
    { intros [|k] Hk; [reflexivity|]. apply (H k). lia. }
    now rewrite !Q.
  - intros H i Hi. specialize (H (S i) 0%nat). rewrite !P in H.
    apply H; lia.
Qed.

Lemma isValidCPF_unfold (cpf : string) :
  isValidCPF cpf = true <->
  String.length (removeNonDigits cpf) = 11%nat
  /\ isRepeatedDigit (removeNonDigits cpf) = false
  /\ remainderOf (weightedLoop (removeNonDigits cpf) 9 10)
     = parseIntAt (removeNonDigits cpf) 9
  /\ remainderOf (weightedLoop (removeNonDigits cpf) 10 11)
     = parseIntAt (removeNonDigits cpf) 10.
Proof.
  unfold isValidCPF.
  destruct (String.length (removeNonDigits cpf) =? 11)%nat eqn:L; simpl.
  2:{ apply Nat.eqb_neq in L. split; [discriminate | tauto]. }
  apply Nat.eqb_eq in L.
  destruct (isRepeatedDigit (removeNonDigits cpf)).
  { split; [discriminate | intros (_ & H & _); discriminate]. }
  destruct (Z.eqb_spec (remainderOf (weightedLoop (removeNonDigits cpf) 9 10))
                       (parseIntAt (removeNonDigits cpf) 9)); simpl.
  2:{ split; [discriminate | tauto]. }
  destruct (Z.eqb_spec (remainderOf (weightedLoop (removeNonDigits cpf) 10 11))
                       (parseIntAt (removeNonDigits cpf) 10)); simpl.
  2:{ split; [discriminate | tauto]. }
  tauto.
Qed.

(** C2: [isValidCPF cpf] is true exactly when eleven digits remain once the
    other characters are removed, they are not all identical, and the 10th
    and the 11th digit are the check digits computed from the digits
    before them ([(sum * 10) mod 11], with 10 and 11 mapped to 0, for the
    weights 10..2 and 11..2). *)
Theorem isValidCPF_checksum (cpf : string) :
  isValidCPF cpf = true <-> ValidCPF cpf.
Proof.
  rewrite isValidCPF_unfold. unfold ValidCPF.
  rewrite length_digitsOf, !weightedLoop_sum, !parseIntAt_digitsOf.
  rewrite !remainderOf_checkDigit by (apply weightedSum_nonneg; simpl; lia).
  split.
  - intros (L & R & H9 & H10). repeat split; auto.
    intros A. apply (isRepeatedDigit_spec cpf L) in A. congruence.
  - intros (L & R & H9 & H10). repeat split; auto.
    destruct (isRepeatedDigit (removeNonDigits cpf)) eqn:E; [|reflexivity].
    exfalso. apply R. now apply (isRepeatedDigit_spec cpf L).
Qed.

End ChecksumFacts.

(** ** The database helpers *)

Module DbFacts.
Import Schema Effects Pg Db Spec.

Local Open Scope Z_scope.

(** *** [ORDER BY created_at DESC] *)

Lemma insertDesc_perm (a : Application) (l : list Application) :
  Permutation (insertDesc a l) (a :: l).
Proof.
  induction l as [|b l IH]; simpl; [reflexivity|].
  destruct (createdAt b <=? createdAt a); [reflexivity|].
  rewrite IH. apply perm_swap.
Qed.

Lemma orderByCreatedAtDesc_perm (l : list Application) :
  Permutation (orderByCreatedAtDesc l) l.
Proof.
  induction l as [|a l IH]; simpl; [reflexivity|].
  rewrite insertDesc_perm. now constructor.
Qed.

Lemma insertDesc_sorted (a : Application) (l : list Application) :
  NewestFirst l -> NewestFirst (insertDesc a l).
Proof.
  unfold NewestFirst.
  induction l as [|b l IH]; intros S; simpl.
  - constructor; constructor.
  - inversion S as [|? ? Sl Fb]; subst.
    destruct (Z.leb_spec (createdAt b) (createdAt a)) as [L|L].
    + constructor; [exact S|].
      constructor; [exact L|].
      eapply Forall_impl; [|exact Fb]. simpl. intros x Hx. lia.
    + constructor; [now apply IH|].
      eapply Permutation_Forall; [symmetry; apply insertDesc_perm|].
      constructor; [lia | exact Fb].
Qed.

Lemma orderByCreatedAtDesc_sorted (l : list Application) :
  NewestFirst (orderByCreatedAtDesc l).
Proof.
  induction l as [|a l IH]; simpl.
  - constructor.
  - now apply insertDesc_sorted.
Qed.

(** Dropping rows keeps the order of those that stay. *)
Lemma filter_sorted (p : Application -> bool) (l : list Application) :
  NewestFirst l -> NewestFirst (filter p l).
Proof.
  unfold NewestFirst. induction 1 as [|a l S IH F]; simpl; [constructor|].
  destruct (p a); [|exact IH].
  constructor; [exact IH|].
  apply Forall_forall. intros x Hx. apply filter_In in Hx as [Hx _].
  revert x Hx. now apply Forall_forall.
Qed.



(** *** [listApplications] *)

Lemma includes_in_dec (l : list string) (v : string) :
  includes l v = if in_dec string_dec v l then true else false.
Proof.
  unfold includes. destruct (in_dec string_dec v l) as [I|N].
  - apply existsb_exists. exists v. split; [exact I | apply String.eqb_refl].
  - destruct (existsb (fun x => (x =? v)%string) l) eqn:E; [|reflexivity].
    apply existsb_exists in E as (x & Hx & Hv).
    apply String.eqb_eq in Hv. now subst.
Qed.

Lemma filter_all {A} (l : list A) : filter (fun _ => true) l = l.
Proof. induction l; simpl; congruence. Qed.

(** What a connected server answers: the rows the query conditions keep,
    newest first, then the rows the in-memory test keeps. *)
Lemma listApplications_shape (st : Server) (filters : option Filters) :
  connected st = true ->
  exists cond post,
    listApplications filters st
    = (Ok (filter post (orderByCreatedAtDesc (filter cond (stored st)))), st)
    /\ forall a, cond a && post a = satisfiesGiven filters a.
Proof.
  intros H. unfold listApplications, bind, getDb. rewrite H. simpl.
  destruct filters as [[vt av sd ed]|].
  2:{ exists always, (fun _ => true). split; [now rewrite filter_all | reflexivity]. }
  destruct vt as [v|], av as [av|], sd as [sd|], ed as [ed|]; simpl.
  all: try destruct (v =? "")%string eqn:E; simpl.
  all: lazymatch goal with
       | |- exists _ _, ret (filter ?p (orderByCreatedAtDesc (filter ?c _))) _ = _ /\ _ =>
           exists c, p; split; [reflexivity|]; intros a; rewrite includes_in_dec
       | |- exists _ _, ret (orderByCreatedAtDesc (filter ?c _)) _ = _ /\ _ =>
           exists c, (fun _ => true);
           split; [cbv [ret]; do 2 f_equal; symmetry; apply filter_all|]; intros a
       end.
  all: unfold and_, always; simpl.
  all: repeat match goal with
       | |- context [if ?c then true else false] => destruct c
       | |- context [Z.leb ?x ?y] => destruct (Z.leb x y)
       | |- context [Availability_eqb ?x ?y] => destruct (Availability_eqb x y)
       end; reflexivity.
Qed.

Lemma whenGiven_spec {A} (o : option A) (test : A -> bool) :
  whenGiven o test = true <-> (forall x, o = Some x -> test x = true).
Proof.
  destruct o as [y|]; simpl; split; intros H; try discriminate; auto.
  now intros x [= <-].
Qed.

Lemma Availability_eqb_eq (a b : Availability) :
  Availability_eqb a b = true <-> a = b.
Proof. destruct a, b; simpl; split; congruence. Qed.

Lemma satisfiesGiven_spec (filters : option Filters) (a : Application) :
  satisfiesGiven filters a = true <-> SatisfiesGiven filters a.
Proof.
  unfold SatisfiesGiven. destruct filters as [f|]; simpl.
  2:{ split; [intros _ f E; discriminate | reflexivity]. }
  rewrite !andb_true_iff, !whenGiven_spec. split.
  - intros [[[S E] Av] V] f' [= <-]. repeat split.
    + intros d Hd. apply Z.leb_le. now apply S.
    + intros d Hd. apply Z.leb_le. now apply E.
    + intros av Hav. apply Availability_eqb_eq. now apply Av.
    + intros v Hv Hne. specialize (V v Hv).
      apply String.eqb_neq in Hne. rewrite Hne in V. simpl in V.
      now destruct (in_dec string_dec v (vehicleTypes a)).
  - intros H. destruct (H f eq_refl) as (S & E & Av & V). repeat split.
    + intros d Hd. apply Z.leb_le. now apply S.
    + intros d Hd. apply Z.leb_le. now apply E.
    + intros av Hav. apply Availability_eqb_eq. now apply Av.
    + intros v Hv. destruct (String.eqb_spec v "") as [|Hne]; [reflexivity|].
      simpl. destruct (in_dec string_dec v (vehicleTypes a)) as [|N];
        [reflexivity|]. exfalso. now apply N, V.
Qed.





(** C8: a connected server answers [listApplications] with a list sorted
    by [createdAt], newest first, whatever the filters; the in-memory
    filter keeps the order of the rows it is given. *)
Theorem listApplications_newest_first (st : Server) (filters : option Filters) :
  connected st = true ->
  (exists res, listApplications filters st = (Ok res, st) /\ NewestFirst res)
  /\ (forall post l, NewestFirst l -> NewestFirst (filter post l)).
Proof.
  intros H. split; [|intros post l; apply filter_sorted].
  destruct (listApplications_shape st filters H) as (cond & post & E & _).
  eexists. split; [exact E|].
  apply filter_sorted, orderByCreatedAtDesc_sorted.
Qed.

Lemma listApplications_newest_first_witness :
  connected Fixtures.server = true
  /\ exists res,
       listApplications None Fixtures.server = (Ok res, Fixtures.server)
       /\ NewestFirst res.
Proof.
  split; [reflexivity|].
  exact (proj1 (listApplications_newest_first Fixtures.server None eq_refl)).
Defined.

(** *** [getApplicationStats] *)

Lemma Status_eqb_eq (a b : Status) : Status_eqb a b = true <-> a = b.
Proof. destruct a, b; simpl; split; congruence. Qed.

Lemma countStatus_number (s : Status) (l : list Application) :
  countStatus s l = numberWithStatus s l.
Proof.
  unfold countStatus, numberWithStatus. f_equal.
  induction l as [|a l IH]; simpl; [reflexivity|].
  destruct (Status_eq_dec (status a) s) as [E|N].
  - apply Status_eqb_eq in E. rewrite E. simpl. now rewrite IH.
  - destruct (Status_eqb (status a) s) eqn:E; [|exact IH].
    apply Status_eqb_eq in E. contradiction.
Qed.

(** Every row falls in exactly one of the four buckets. *)
Lemma buckets_partition (l : list Application) :
  Z.of_nat (List.length l)
  = numberWithStatus pendente l + numberWithStatus em_analise l
    + numberWithStatus aprovado l + numberWithStatus rejeitado l.
Proof.
  unfold numberWithStatus.
  induction l as [|a l IH]; [reflexivity|].
  cbn [List.length map count_occ].
  destruct (status a);
    repeat match goal with
    | |- context [Status_eq_dec ?x ?y] =>
        destruct (Status_eq_dec x y); try discriminate; try contradiction
    end; lia.
Qed.

(** C5: a connected server answers [getApplicationStats] with five
    counts: [total] is the number of stored applications, each of
    [pendente], [em_analise], [aprovado], [rejeitado] is the number of
    applications with that status, and [total] is the sum of the four. *)
Theorem getApplicationStats_buckets (st : Server) :
  connected st = true ->
  exists s,
    getApplicationStats st = (Ok s, st)
    /\ Stats.total s = Z.of_nat (List.length (stored st))
    /\ Stats.pendente s = numberWithStatus pendente (stored st)
    /\ Stats.em_analise s = numberWithStatus em_analise (stored st)
    /\ Stats.aprovado s = numberWithStatus aprovado (stored st)
    /\ Stats.rejeitado s = numberWithStatus rejeitado (stored st)
    /\ Stats.total s
       = Stats.pendente s + Stats.em_analise s + Stats.aprovado s
         + Stats.rejeitado s.
Proof.
  intros H. unfold getApplicationStats, bind, getDb. rewrite H. simpl.
  rewrite filter_all. eexists. split; [reflexivity|]. simpl.
  rewrite !countStatus_number.
  repeat split. apply buckets_partition.
Qed.

Lemma getApplicationStats_buckets_witness :
  connected Fixtures.server = true
  /\ exists s,
       getApplicationStats Fixtures.server = (Ok s, Fixtures.server)
       /\ Stats.total s = 3
       /\ Stats.pendente s = 1 /\ Stats.em_analise s = 1
       /\ Stats.aprovado s = 1 /\ Stats.rejeitado s = 0.
Proof.
  split; [reflexivity|].
  destruct (getApplicationStats_buckets Fixtures.server eq_refl)
    as (s & E & T & P & A & V & R & _).
  exists s. split; [exact E|].
  rewrite T, P, A, V, R. repeat split.
Defined.

End DbFacts.

(** ** The router *)

Module RouterFacts.
Import Schema Effects Pg Db Spec Router.

Local Open Scope Z_scope.

(** *** The admin gate *)

Lemma adminProcedure_admin {O} (ctx : Ctx.t) (u : User) (next : M O) :
  Ctx.user ctx = Some u -> role u = admin -> adminProcedure ctx next = next.
Proof.
  intros Hu Hr. unfold adminProcedure, protectedProcedure.
  now rewrite Hu, Hr.
Qed.

Lemma adminProcedure_forbidden {O} (ctx : Ctx.t) (u : User) (next : M O)
      (st : Server) :
  Ctx.user ctx = Some u -> role u <> admin ->
  adminProcedure ctx next st
  = (Throw (TRPCError FORBIDDEN "Acesso restrito a administradores"), st).
Proof.
  intros Hu Hr. unfold adminProcedure, protectedProcedure. rewrite Hu.
  destruct (role u); [reflexivity | contradiction].
Qed.

Lemma adminProcedure_unauthenticated {O} (ctx : Ctx.t) (next : M O)
      (st : Server) :
  Ctx.user ctx = None -> adminProcedure ctx next st = (Throw Unauthenticated, st).
Proof.
  intros Hu. unfold adminProcedure, protectedProcedure. now rewrite Hu.
Qed.

(** C6: [applications.list], [getById], [updateStatus] and [stats] fail
    for every caller who is not an admin, with FORBIDDEN and the message
    'Acesso restrito a administradores' when the caller is authenticated
    and with an exception when there is no user, and the server state,
    so the stored applications, is unchanged; for an admin each procedure
    is its resolver. *)
Theorem admin_procedures_gated
        (newDate : string -> Date) (ctx : Ctx.t) (st : Server)
        (filters : option ListInput.t) (id_ : Z) (upd : UpdateStatusInput.t) :
  (forall u, Ctx.user ctx = Some u -> role u <> admin ->
     let forbidden :=
       TRPCError FORBIDDEN "Acesso restrito a administradores" in
     applications.list newDate ctx filters st = (Throw forbidden, st)
     /\ applications.getById ctx id_ st = (Throw forbidden, st)
     /\ applications.updateStatus ctx upd st = (Throw forbidden, st)
     /\ applications.stats ctx st = (Throw forbidden, st))
  /\ (Ctx.user ctx = None ->
      exists e,
        applications.list newDate ctx filters st = (Throw e, st)
        /\ applications.getById ctx id_ st = (Throw e, st)
        /\ applications.updateStatus ctx upd st = (Throw e, st)
        /\ applications.stats ctx st = (Throw e, st))
  /\ (forall u, Ctx.user ctx = Some u -> role u = admin ->
      applications.list newDate ctx filters st
      = applications.listResolver newDate filters st
      /\ applications.getById ctx id_ st = applications.getByIdResolver id_ st
      /\ applications.updateStatus ctx upd st
         = applications.updateStatusResolver upd st
      /\ applications.stats ctx st = applications.statsResolver st).
Proof.
  unfold applications.list, applications.getById, applications.updateStatus,
    applications.stats.
  split; [|split].
  - intros u Hu Hr. cbv zeta.
    repeat split; now apply (adminProcedure_forbidden ctx u).
  - intros Hu. exists Unauthenticated.
    repeat split; now apply adminProcedure_unauthenticated.
  - intros u Hu Hr.
    repeat split; now rewrite (adminProcedure_admin ctx u).
Qed.

Lemma admin_procedures_gated_witness :
  (applications.list (fun _ => 0) Fixtures.createUserContext None Fixtures.server
   = (Throw (TRPCError FORBIDDEN "Acesso restrito a administradores"),
      Fixtures.server))
  /\ (exists e,
        applications.stats Fixtures.createPublicContext Fixtures.server
        = (Throw e, Fixtures.server))
  /\ applications.getById Fixtures.createAdminContext 1 Fixtures.server
     = applications.getByIdResolver 1 Fixtures.server.
Proof.
  pose (upd := {| UpdateStatusInput.id := 1; UpdateStatusInput.status := aprovado |}).
  split; [|split].
  - apply (proj1 (admin_procedures_gated (fun _ => 0) Fixtures.createUserContext
                    Fixtures.server None 1 upd)
             {| userId := 2; openId := "regular-user"; role := user |});
      [reflexivity | discriminate].
  - destruct (proj1 (proj2 (admin_procedures_gated (fun _ => 0)
                               Fixtures.createPublicContext Fixtures.server
                               None 1 upd)) eq_refl) as (e & _ & _ & _ & E).
    exists e. exact E.
  - apply (proj2 (proj2 (admin_procedures_gated (fun _ => 0)
                           Fixtures.createAdminContext Fixtures.server
                           None 1 upd))
             {| userId := 1; openId := "admin-user"; role := admin |});
      reflexivity.
Defined.

(** *** [applications.getById] *)

Lemma hd_error_filter_none {A} (p : A -> bool) (l : list A) :
  hd_error (filter p l) = None <-> (forall a, In a l -> p a = false).
Proof.
  induction l as [|b l IH]; simpl.
  - split; [intros _ a [] | reflexivity].
  - destruct (p b) eqn:E; simpl.
    + split; [discriminate|]. intros H. specialize (H b (or_introl eq_refl)).
      congruence.
    + rewrite IH. split.
      * intros H a [<-|Ha]; auto.
      * intros H a Ha. apply H. now right.
Qed.

Lemma hd_error_filter_some {A} (p : A -> bool) (l : list A) (a : A) :
  hd_error (filter p l) = Some a -> In a l /\ p a = true.
Proof.
  intros H. apply filter_In.
  destruct (filter p l) as [|x r]; [discriminate|].
  injection H as ->. now left.
Qed.

(** With a primary key, the row found is the row with that id. *)
Lemma hd_error_filter_key (l : list Application) (a : Application) :
  NoDup (map id l) -> In a l ->
  hd_error (filter (fun b => id b =? id a) l) = Some a.
Proof.
  induction l as [|b l IH]; intros N I; [destruct I|].
  simpl in N. inversion N as [|? ? Nb Nl]; subst.
  simpl. destruct I as [->|I].
  - now rewrite Z.eqb_refl.
  - destruct (Z.eqb_spec (id b) (id a)) as [E|_]; [|now apply IH].
    exfalso. apply Nb. rewrite E. now apply in_map.
Qed.

Lemma getApplicationById_connected (st : Server) (id_ : Z) :
  connected st = true ->
  getApplicationById id_ st
  = (Ok (hd_error (filter (fun a => id a =? id_) (stored st))), st).
Proof.
  intros H. unfold getApplicationById, bind, getDb. now rewrite H.
Qed.

Lemma getById_unchanged (ctx : Ctx.t) (id_ : Z) (st : Server) :
  snd (applications.getById ctx id_ st) = st.
Proof.
  unfold applications.getById, adminProcedure, protectedProcedure.
  destruct (Ctx.user ctx) as [u|]; [|reflexivity].
  destruct (role u); [reflexivity|]. simpl.
  unfold applications.getByIdResolver, getApplicationById, bind, getDb.
  destruct (connected st); simpl; [|reflexivity].
  now destruct (hd_error _).
Qed.

(** C9: for an admin on a connected server and an id of the [integer]
    column, [applications.getById] throws NOT_FOUND, with the message
    'Candidatura não encontrada', exactly when no stored application has
    the id; otherwise it returns a stored application with that id (the
    one with that id, ids being unique); and the server state is the same
    afterwards, whoever calls. *)
Theorem getById_not_found_iff_absent
        (ctx : Ctx.t) (u : User) (st : Server) (id_ : Z) :
  Ctx.user ctx = Some u -> role u = admin -> connected st = true ->
  Int4 id_ ->
  (applications.getById ctx id_ st
   = (Throw (TRPCError NOT_FOUND "Candidatura não encontrada"), st)
   <-> ~ (exists a, In a (stored st) /\ id a = id_))
  /\ ((exists a, In a (stored st) /\ id a = id_) ->
      exists a, In a (stored st) /\ id a = id_
                /\ applications.getById ctx id_ st = (Ok a, st))
  /\ (NoDup (map id (stored st)) ->
      forall a, In a (stored st) -> id a = id_ ->
                applications.getById ctx id_ st = (Ok a, st))
  /\ (forall ctx', snd (applications.getById ctx' id_ st) = st).
Proof.
  intros Hu Hr Hc _.
  assert (E : applications.getById ctx id_ st
              = match hd_error (filter (fun a => id a =? id_) (stored st)) with
                | None =>
                    (Throw (TRPCError NOT_FOUND "Candidatura não encontrada"), st)
                | Some a => (Ok a, st)
                end).
  { unfold applications.getById. rewrite (adminProcedure_admin ctx u) by assumption.
    unfold applications.getByIdResolver, bind.
    rewrite getApplicationById_connected by assumption.
    now destruct (hd_error _). }
  rewrite E. clear E.
  destruct (hd_error (filter (fun a => id a =? id_) (stored st))) as [a|] eqn:F.
  - apply hd_error_filter_some in F as F'. destruct F' as [Ia Pa].
    apply Z.eqb_eq in Pa.
    split; [|split; [|split]].
    + split; [discriminate|]. intros N. exfalso. apply N. now exists a.
    + intros _. now exists a.
    + intros N b Ib Eb. rewrite <- Eb in F.
      rewrite (hd_error_filter_key _ b N Ib) in F. congruence.
    + intros ctx'. apply getById_unchanged.
  - pose proof (proj1 (hd_error_filter_none _ _) F) as A.
    assert (N : ~ (exists a, In a (stored st) /\ id a = id_)).
    { intros (a & Ia & Ea). specialize (A a Ia). simpl in A.
      apply Z.eqb_neq in A. contradiction. }
    split; [|split; [|split]].
    + tauto.
    + intros X. contradiction.
    + intros _ a Ia Ea. exfalso. apply N. now exists a.
    + intros ctx'. apply getById_unchanged.
Qed.

Lemma getById_not_found_iff_absent_witness :
  (applications.getById Fixtures.createAdminContext 7 Fixtures.server
   = (Throw (TRPCError NOT_FOUND "Candidatura não encontrada"), Fixtures.server)
   <-> ~ (exists a, In a (stored Fixtures.server) /\ id a = 7))
  /\ applications.getById Fixtures.createAdminContext 2 Fixtures.server
     = (Ok (Fixtures.row 2 ["moto"%string] em_analise 3000), Fixtures.server).
Proof.
  split.
  - apply (getById_not_found_iff_absent Fixtures.createAdminContext
             {| userId := 1; openId := "admin-user"; role := admin |}
             Fixtures.server 7); try reflexivity.
    unfold Int4. lia.
  - reflexivity.
Defined.

(** *** [applications.updateStatus] *)

Lemma updateApplicationStatus_connected (st : Server) (id_ : Z) (s : Status) :
  connected st = true ->
  updateApplicationStatus id_ s st
  = (Ok tt,
     {| connected := true;
        database :=
          {| rows := map (fun a => if id a =? id_ then setStatus s a else a)
                         (stored st);
             nextId := nextId (database st) |} |}).
Proof.
  intros H. unfold updateApplicationStatus, updateSetStatus, bind, getDb.
  simpl. rewrite H. simpl. rewrite H. reflexivity.
Qed.

Lemma filter_key_map_setStatus (id_ : Z) (s : Status) (l : list Application) :
  filter (fun a => id a =? id_)
         (map (fun a => if id a =? id_ then setStatus s a else a) l)
  = map (setStatus s) (filter (fun a => id a =? id_) l).
Proof.
  induction l as [|a l IH]; simpl; [reflexivity|].
  destruct (id a =? id_) eqn:E; simpl; rewrite E; simpl; now rewrite IH.
Qed.

(** C1: for an admin on a connected server, [applications.updateStatus]
    (that is, [updateApplicationStatus]) succeeds for every id of the
    [integer] column and every target status, whatever the status was:
    afterwards every stored application with that id has the target status
    and is otherwise as it was, the other applications are untouched, and
    reading the id back gives the application with the target status.  No
    transition is refused. *)
Theorem updateStatus_any_transition
        (ctx : Ctx.t) (u : User) (st : Server) (id_ : Z) (target : Status) :
  Ctx.user ctx = Some u -> role u = admin -> connected st = true ->
  Int4 id_ ->
  exists st',
    applications.updateStatus ctx
      {| UpdateStatusInput.id := id_; UpdateStatusInput.status := target |} st
    = (Ok {| UpdateStatusOutput.success := true |}, st')
    /\ updateApplicationStatus id_ target st = (Ok tt, st')
    /\ connected st' = true
    /\ (forall a, In a (stored st) -> id a = id_ ->
          In (setStatus target a) (stored st'))
    /\ (forall a', In a' (stored st') -> id a' = id_ -> status a' = target)
    /\ (forall a, id a <> id_ -> (In a (stored st) <-> In a (stored st')))
    /\ (forall a, getApplicationById id_ st = (Ok (Some a), st) ->
          getApplicationById id_ st' = (Ok (Some (setStatus target a)), st')).
Proof.
  intros Hu Hr Hc _.
  pose proof (updateApplicationStatus_connected st id_ target Hc) as E.
  eexists. split; [|split; [exact E|]].
  { unfold applications.updateStatus.
    rewrite (adminProcedure_admin ctx u) by assumption.
    unfold applications.updateStatusResolver, bind. simpl. now rewrite E. }
  split; [reflexivity|].
  unfold stored. simpl.
  split; [|split; [|split]].
  - intros a Ia Ea. apply in_map_iff. exists a.
    split; [|exact Ia]. apply Z.eqb_eq in Ea. now rewrite Ea.
  - intros a' Ia' Ea'. apply in_map_iff in Ia' as (a & <- & Ia).
    destruct (id a =? id_) eqn:K; [reflexivity|].
    apply Z.eqb_neq in K. contradiction.
  - intros a Na. rewrite in_map_iff. split.
    + intros Ia. exists a. split; [|exact Ia].
      apply Z.eqb_neq in Na. now rewrite Na.
    + intros (b & Eb & Ib). destruct (id b =? id_) eqn:K.
      * apply Z.eqb_eq in K. subst a. simpl in Na. contradiction.
      * now subst.
  - intros a Ga. rewrite getApplicationById_connected in Ga by assumption.
    rewrite getApplicationById_connected by reflexivity.
    unfold stored in *. simpl. rewrite filter_key_map_setStatus.
    injection Ga as Ga.
    destruct (filter (fun b => id b =? id_) (rows (database st)));
      [discriminate|].
    simpl in *. congruence.
Qed.

Lemma updateStatus_any_transition_witness :
  Ctx.user Fixtures.createAdminContext
  = Some {| userId := 1; openId := "admin-user"; role := admin |}
  /\ connected Fixtures.server = true
  /\ Int4 3
  /\ exists st',
       applications.updateStatus Fixtures.createAdminContext
         {| UpdateStatusInput.id := 3; UpdateStatusInput.status := pendente |}
         Fixtures.server
       = (Ok {| UpdateStatusOutput.success := true |}, st')
       /\ getApplicationById 3 st'
          = (Ok (Some (Fixtures.row 3 ["carro"%string] pendente 2000)), st').
Proof.
  split; [reflexivity|]. split; [reflexivity|].
  assert (I : Int4 3) by (unfold Int4; lia).
  split; [exact I|].
  destruct (updateStatus_any_transition Fixtures.createAdminContext
              {| userId := 1; openId := "admin-user"; role := admin |}
              Fixtures.server 3 pendente eq_refl eq_refl eq_refl I)
    as (st' & E & _ & _ & _ & _ & _ & G).
  exists st'. split; [exact E|].
  apply (G (Fixtures.row 3 ["carro"%string] aprovado 2000)). reflexivity.
Defined.

(** *** [applications.submit] *)

Lemma orNull_spec (value : option string) :
  (value = None \/ value = Some ""%string -> orNull value = None)
  /\ (forall e, value = Some e -> e <> ""%string -> orNull value = Some e).
Proof.
  unfold orNull, truthy. split.
  - intros [->| ->]; reflexivity.
  - intros e -> N. apply String.eqb_neq in N. now rewrite N.
Qed.

Lemma submit_accepted
      (isEmail : string -> bool) (columnsAccept : Insert.t -> bool) (now : Date)
      (ctx : Ctx.t) (input : SubmitInput.t) (st : Server) :
  connected st = true ->
  applications.submitInputSchema isEmail input = true ->
  columnsAccept (applications.applicationOf input) = true ->
  applications.submit isEmail columnsAccept now ctx input st
  = (let app := rowOf now (nextId (database st))
                  (applications.applicationOf input) in
     (Ok {| SubmitOutput.success := true; SubmitOutput.id := id app |},
      {| connected := true;
         database := {| rows := (stored st ++ [app])%list;
                        nextId := nextId (database st) + 1 |} |})).
Proof.
  intros Hc Hs Ha.
  unfold applications.submit, publicProcedure, withInput. rewrite Hs.
  unfold applications.submitResolver, createApplication, bind, getDb.
  rewrite Hc. simpl. unfold insertReturning. rewrite Ha, Hc. reflexivity.
Qed.

Lemma varchar_fits (n : nat) (value : string) :
  (String.length value <= n)%nat -> varchar n value = value.
Proof. intros H. unfold varchar. now apply JsFacts.substring_whole. Qed.

(** C7: [applications.submit] runs for every caller, authenticated or
    not.  On a connected server, a submission that the input schema and
    the database accept is stored as a new application with status
    [pendente], with the e-mail [null] when it was absent or empty and the
    notes [null] when they were absent or empty, and the procedure returns
    [success] and the id of the new record.  The record holds the
    submitted vehicle types, and the submitted name, CPF and e-mail as
    their [varchar] columns hold them: cut to the declared length, so as
    submitted when within it. *)
Theorem submit_stores_pending_application
        (isEmail : string -> bool) (columnsAccept : Insert.t -> bool) (now : Date)
        (ctx : Ctx.t) (input : SubmitInput.t) (st : Server) :
  connected st = true ->
  applications.submitInputSchema isEmail input = true ->
  columnsAccept (applications.applicationOf input) = true ->
  exists app,
    applications.submit isEmail columnsAccept now ctx input st
    = (Ok {| SubmitOutput.success := true; SubmitOutput.id := id app |},
       {| connected := true;
          database := {| rows := (stored st ++ [app])%list;
                         nextId := nextId (database st) + 1 |} |})
    /\ id app = nextId (database st)
    /\ status app = pendente
    /\ (SubmitInput.email input = None
         \/ SubmitInput.email input = Some ""%string -> email app = None)
    /\ (forall e, SubmitInput.email input = Some e -> e <> ""%string ->
          email app = Some (varchar 320 e))
    /\ (SubmitInput.notes input = None
         \/ SubmitInput.notes input = Some ""%string -> notes app = None)
    /\ (forall n, SubmitInput.notes input = Some n -> n <> ""%string ->
          notes app = Some n)
    /\ createdAt app = now
    /\ fullName app = varchar 255 (SubmitInput.fullName input)
    /\ cpf app = varchar 14 (SubmitInput.cpf input)
    /\ vehicleTypes app = SubmitInput.vehicleTypes input
    /\ ((String.length (SubmitInput.fullName input) <= 255)%nat ->
        fullName app = SubmitInput.fullName input)
    /\ ((String.length (SubmitInput.cpf input) <= 14)%nat ->
        cpf app = SubmitInput.cpf input).
Proof.
  intros Hc Hs Ha.
  exists (rowOf now (nextId (database st)) (applications.applicationOf input)).
  split; [now apply submit_accepted|].
  cbn [rowOf id status email notes createdAt fullName cpf vehicleTypes
       applications.applicationOf Insert.email Insert.notes Insert.status
       Insert.createdAt Insert.fullName Insert.cpf Insert.vehicleTypes].
  destruct (orNull_spec (SubmitInput.email input)) as [E1 E2].
  destruct (orNull_spec (SubmitInput.notes input)) as [N1 N2].
  repeat split; auto using varchar_fits.
  - intros K. now rewrite (E1 K).
  - intros e He Hn. now rewrite (E2 e He Hn).
Qed.

Lemma submit_stores_pending_application_witness :
  connected Fixtures.server = true
  /\ exists app,
       applications.submit (fun _ => false) Fixtures.withinDeclaredLengths 5000
         Fixtures.createPublicContext
         (Fixtures.withVehicleTypes ["caminhao"%string] Fixtures.anonymous)
         Fixtures.server
       = (Ok {| SubmitOutput.success := true; SubmitOutput.id := id app |},
          {| connected := true;
             database :=
               {| rows := (stored Fixtures.server ++ [app])%list;
                  nextId := 5 |} |})
       /\ id app = 4 /\ status app = pendente
       /\ email app = None /\ notes app = None.
Proof.
  split; [reflexivity|].
  destruct (submit_stores_pending_application
              (fun _ => false) Fixtures.withinDeclaredLengths 5000
              Fixtures.createPublicContext
              (Fixtures.withVehicleTypes ["caminhao"%string] Fixtures.anonymous)
              Fixtures.server eq_refl eq_refl eq_refl)
    as (app & E & I & S & M & _ & N & _).
  exists app. split; [exact E|]. split; [exact I|]. split; [exact S|].
  split; [apply M | apply N]; left; reflexivity.
Defined.

(** The two tests of [applications.submit], on the fixture server. *)
Example submit_test_success (now : Date) :
  fst (applications.submit (fun _ => true) Fixtures.withinDeclaredLengths now
         Fixtures.createPublicContext Fixtures.submission Fixtures.server)
  = Ok {| SubmitOutput.success := true; SubmitOutput.id := 4 |}.
Proof. reflexivity. Qed.

Example submit_test_invalid_cpf
        (isEmail : string -> bool) (columnsAccept : Insert.t -> bool)
        (now : Date) (st : Server) :
  applications.submit isEmail columnsAccept now
    Fixtures.createPublicContext Fixtures.repeatedCpf st
  = (Throw InputRejected, st).
Proof.
  unfold applications.submit, publicProcedure, withInput,
    applications.submitInputSchema.
  replace (Cpf.isValidCPF (SubmitInput.cpf Fixtures.repeatedCpf))
    with false by reflexivity.
  now rewrite andb_false_r.
Qed.

(** *** The vehicle types of a submission *)

Lemma vehicleTypesSchema_nonempty (v : list string) :
  vehicleTypesSchema v = true <-> v <> [].
Proof.
  unfold vehicleTypesSchema. destruct v; simpl; split; congruence.
Qed.

Lemma submitInputSchema_vehicleTypes
      (isEmail : string -> bool) (input : SubmitInput.t) :
  applications.submitInputSchema isEmail input = true ->
  vehicleTypesSchema (SubmitInput.vehicleTypes input) = true.
Proof.
  unfold applications.submitInputSchema. intros H.
  repeat (apply andb_true_iff in H as [H ?]). assumption.
Qed.

(** The resolver of [submit] never throws what the schema throws. *)
Lemma submitResolver_not_rejected
      (columnsAccept : Insert.t -> bool) (now : Date)
      (input : SubmitInput.t) (st : Server) :
  applications.submitResolver columnsAccept now input st
  <> (Throw InputRejected, st).
Proof.
  unfold applications.submitResolver, createApplication, bind, getDb,
    insertReturning.
  simpl. destruct (connected st); simpl; [|discriminate].
  destruct (columnsAccept _); discriminate.
Qed.

(** C4, amended: the [vehicleTypes] of a submission is accepted exactly
    when it is a non-empty array of strings; the strings are not compared
    with the tags of the form.  A submission is rejected as invalid input
    exactly when the schema fails, an accepted submission has at least one
    vehicle type, and it stays accepted when its vehicle types are replaced
    by any non-empty array. *)
Theorem submit_vehicleTypes_non_empty
        (isEmail : string -> bool) (columnsAccept : Insert.t -> bool) (now : Date)
        (ctx : Ctx.t) (input : SubmitInput.t) (st : Server) :
  (vehicleTypesSchema (SubmitInput.vehicleTypes input) = true
   <-> SubmitInput.vehicleTypes input <> [])
  /\ (applications.submit isEmail columnsAccept now ctx input st
      = (Throw InputRejected, st)
      <-> applications.submitInputSchema isEmail input = false)
  /\ (applications.submitInputSchema isEmail input = true ->
      SubmitInput.vehicleTypes input <> [])
  /\ (forall v, v <> [] ->
      applications.submitInputSchema isEmail input = true ->
      applications.submitInputSchema isEmail (Fixtures.withVehicleTypes v input)
      = true).
Proof.
  split; [apply vehicleTypesSchema_nonempty|]. split; [|split].
  - unfold applications.submit, publicProcedure, withInput.
    destruct (applications.submitInputSchema isEmail input).
    + split; [|discriminate]. intros H.
      now apply submitResolver_not_rejected in H.
    + split; reflexivity.
  - intros H. now apply vehicleTypesSchema_nonempty,
                (submitInputSchema_vehicleTypes isEmail).
  - intros v Hv. unfold applications.submitInputSchema. simpl.
    apply vehicleTypesSchema_nonempty in Hv. rewrite Hv.
    intros H. repeat (apply andb_true_iff in H as [H ?]).
    repeat (apply andb_true_iff; split); first [assumption | reflexivity].
Qed.

Lemma submit_vehicleTypes_non_empty_witness :
  applications.submitInputSchema (fun _ => true) Fixtures.submission = true
  /\ applications.submitInputSchema (fun _ => true)
       (Fixtures.withVehicleTypes ["aviao"%string] Fixtures.submission) = true.
Proof.
  split; [reflexivity|].
  apply (submit_vehicleTypes_non_empty (fun _ => true) (fun _ => true) 0
           Fixtures.createPublicContext Fixtures.submission Fixtures.server).
  - discriminate.
  - reflexivity.
Defined.

(** C4, as stated, fails: a submission whose only vehicle type is not one
    of the five tags passes the schema, whatever the e-mail test, and is
    stored. *)
Lemma submit_accepts_unlisted_vehicle_type :
  ~ In "aviao"%string vehicleTags
  /\ In "aviao"%string (SubmitInput.vehicleTypes Fixtures.anonymous)
  /\ (forall isEmail,
        applications.submitInputSchema isEmail Fixtures.anonymous = true)
  /\ (forall isEmail now,
        fst (applications.submit isEmail Fixtures.withinDeclaredLengths now
               Fixtures.createPublicContext Fixtures.anonymous Fixtures.server)
        = Ok {| SubmitOutput.success := true; SubmitOutput.id := 4 |}).
Proof.
  split.
  { unfold vehicleTags. simpl. intros H.
    repeat (destruct H as [H|H]; [discriminate H|]). exact H. }
  split; [left; reflexivity|].
  split; [reflexivity|].
  intros isEmail now.
  rewrite (submit_accepted isEmail Fixtures.withinDeclaredLengths now
             Fixtures.createPublicContext Fixtures.anonymous Fixtures.server);
    reflexivity.
Qed.

End RouterFacts.

(** ** The primary key *)

Module KeyFacts.
Import Schema Effects Pg Db Spec.

Local Open Scope Z_scope.

(** [serial] ids stay unique: inserting keeps the table well formed. *)
Lemma insertReturning_wellFormed
      (columnsAccept : Insert.t -> bool) (now : Date) (data : Insert.t)
      (st st' : Server) (app : Application) :
  WellFormed (database st) ->
  insertReturning columnsAccept now data st = (Ok app, st') ->
  WellFormed (database st') /\ id app = nextId (database st).
Proof.
  intros [N F] H. unfold insertReturning in H.
  destruct (columnsAccept data); [|discriminate].
  injection H as <- <-. unfold WellFormed. simpl. split; [|reflexivity]. split.
  - rewrite map_app. simpl.
    apply NoDup_app; [exact N | repeat constructor; intros [] |].
    intros x Hx [<-|[]].
    apply in_map_iff in Hx as (a & Ea & Ia).
    rewrite Forall_forall in F. specialize (F a Ia). lia.
  - apply Forall_app. split.
    + eapply Forall_impl; [|exact F]. simpl. intros a Ha. lia.
    + repeat constructor. simpl. lia.
Qed.

(** Updating a status keeps the ids, so the table stays well formed. *)
Lemma updateSetStatus_wellFormed
      (s : Status) (cond : Application -> bool) (st : Server) :
  WellFormed (database st) ->
  WellFormed (database (snd (updateSetStatus s cond st))).
Proof.
  intros [N F]. unfold updateSetStatus, WellFormed. simpl. split.
  - rewrite map_map.
    erewrite map_ext; [exact N|]. intros a. now destruct (cond a).
  - apply Forall_map. eapply Forall_impl; [|exact F].
    intros a Ha. now destruct (cond a).
Qed.

Example fixture_server_wellFormed : WellFormed (database Fixtures.server).
Proof.
  split.
  - simpl. repeat constructor; simpl; intuition discriminate.
  - simpl. repeat constructor.
Qed.

End KeyFacts.

(** ** How the procedures compose *)

Module FlowFacts.
Import Schema Effects Pg Db Spec Router.

Local Open Scope Z_scope.

Lemma filter_app_last {A} (p : A -> bool) (l : list A) (a : A) :
  filter p (l ++ [a]) = (filter p l ++ if p a then [a] else [])%list.
Proof. rewrite filter_app. reflexivity. Qed.

Lemma filter_none {A} (p : A -> bool) (l : list A) :
  (forall a, In a l -> p a = false) -> filter p l = [].
Proof.
  induction l as [|b l IH]; intros H; simpl; [reflexivity|].
  rewrite (H b (or_introl eq_refl)). apply IH. intros a Ha. apply H. now right.
Qed.

Lemma map_unchanged {A} (f : A -> A) (l : list A) :
  (forall a, In a l -> f a = a) -> map f l = l.
Proof.
  induction l as [|b l IH]; intros H; simpl; [reflexivity|].
  rewrite (H b (or_introl eq_refl)). f_equal. apply IH.
  intros a Ha. apply H. now right.
Qed.

(** X1: without a database handle every application helper throws
    [Error("Database not available")] and leaves the state alone, and so
    does [applications.submit] on an input that passes its schema. *)
Theorem helpers_need_database
        (isEmail : string -> bool) (columnsAccept : Insert.t -> bool) (now : Date)
        (st : Server) (data : Insert.t) (id_ : Z) (filters : option Filters)
        (s : Status) (ctx : Ctx.t) (input : SubmitInput.t) :
  connected st = false ->
  createApplication columnsAccept now data st
  = (Throw (Error "Database not available"), st)
  /\ getApplicationById id_ st = (Throw (Error "Database not available"), st)
  /\ listApplications filters st = (Throw (Error "Database not available"), st)
  /\ updateApplicationStatus id_ s st
     = (Throw (Error "Database not available"), st)
  /\ getApplicationStats st = (Throw (Error "Database not available"), st)
  /\ (applications.submitInputSchema isEmail input = true ->
      applications.submit isEmail columnsAccept now ctx input st
      = (Throw (Error "Database not available"), st)).
Proof.
  intros H.
  unfold createApplication, getApplicationById, listApplications,
    updateApplicationStatus, getApplicationStats, bind, getDb.
  rewrite H. simpl. repeat split.
  intros V. unfold applications.submit, publicProcedure, withInput.
  rewrite V. unfold applications.submitResolver, createApplication, bind, getDb.
  now rewrite H.
Qed.

Lemma helpers_need_database_witness :
  getApplicationStats {| connected := false; database := database Fixtures.server |}
  = (Throw (Error "Database not available"),
     {| connected := false; database := database Fixtures.server |})
  /\ applications.submit (fun _ => true) (fun _ => true) 0
       Fixtures.createPublicContext Fixtures.submission
       {| connected := false; database := database Fixtures.server |}
     = (Throw (Error "Database not available"),
        {| connected := false; database := database Fixtures.server |}).
Proof.
  pose proof (helpers_need_database (fun _ => true) (fun _ => true) 0
                {| connected := false; database := database Fixtures.server |}
                (applications.applicationOf Fixtures.submission) 1 None pendente
                Fixtures.createPublicContext Fixtures.submission eq_refl)
    as (_ & _ & _ & _ & S & R).
  split; [exact S | apply R; reflexivity].
Defined.

(** X2: round trip.  On a connected server whose ids are unique and below
    the sequence, an accepted submission can be read back by an admin under
    the id that [submit] returned: [getById] gives the stored application,
    with status [pendente], the submitted vehicle types, and the submitted
    name and CPF as their [varchar] columns hold them (cut to 255 and 14
    characters, so as submitted when within those lengths). *)
Theorem submit_then_getById
        (isEmail : string -> bool) (columnsAccept : Insert.t -> bool) (now : Date)
        (ctx admin_ctx : Ctx.t) (u : User) (input : SubmitInput.t) (st : Server) :
  connected st = true ->
  WellFormed (database st) ->
  applications.submitInputSchema isEmail input = true ->
  columnsAccept (applications.applicationOf input) = true ->
  Ctx.user admin_ctx = Some u -> role u = admin ->
  exists out st' app,
    applications.submit isEmail columnsAccept now ctx input st = (Ok out, st')
    /\ applications.getById admin_ctx (SubmitOutput.id out) st' = (Ok app, st')
    /\ id app = SubmitOutput.id out
    /\ In app (stored st')
    /\ status app = pendente
    /\ fullName app = varchar 255 (SubmitInput.fullName input)
    /\ cpf app = varchar 14 (SubmitInput.cpf input)
    /\ vehicleTypes app = SubmitInput.vehicleTypes input
    /\ ((String.length (SubmitInput.fullName input) <= 255)%nat ->
        fullName app = SubmitInput.fullName input)
    /\ ((String.length (SubmitInput.cpf input) <= 14)%nat ->
        cpf app = SubmitInput.cpf input).
Proof.
  intros Hc [_ F] Hs Ha Hu Hr.
  pose proof (RouterFacts.submit_accepted isEmail columnsAccept now ctx input st
                Hc Hs Ha) as E. cbv zeta in E.
  set (app := rowOf now (nextId (database st)) (applications.applicationOf input))
    in *.
  eexists _, _, app. split; [exact E|].
  split;
    [|repeat split; unfold stored; simpl;
      auto using in_or_app, in_eq, RouterFacts.varchar_fits].
  - unfold applications.getById.
    rewrite (RouterFacts.adminProcedure_admin admin_ctx u) by assumption.
    unfold applications.getByIdResolver, bind.
    rewrite RouterFacts.getApplicationById_connected by reflexivity.
    unfold stored. simpl. rewrite filter_app_last.
    rewrite filter_none.
    + simpl. now rewrite Z.eqb_refl.
    + intros a Ia. rewrite Forall_forall in F. specialize (F a Ia).
      apply Z.eqb_neq. lia.
Qed.

Lemma submit_then_getById_witness :
  exists out st' app,
    applications.submit (fun _ => true) Fixtures.withinDeclaredLengths 5000
      Fixtures.createPublicContext Fixtures.submission Fixtures.server
    = (Ok out, st')
    /\ applications.getById Fixtures.createAdminContext (SubmitOutput.id out) st'
       = (Ok app, st')
    /\ status app = pendente.
Proof.
  destruct (submit_then_getById (fun _ => true) Fixtures.withinDeclaredLengths
              5000 Fixtures.createPublicContext Fixtures.createAdminContext
              {| userId := 1; openId := "admin-user"; role := admin |}
              Fixtures.submission Fixtures.server eq_refl
              KeyFacts.fixture_server_wellFormed eq_refl eq_refl eq_refl eq_refl)
    as (out & st' & app & E & G & _ & _ & S & _).
  exists out, st', app. repeat split; assumption.
Defined.

Lemma getApplicationStats_connected (st : Server) :
  connected st = true ->
  getApplicationStats st
  = (Ok {| Stats.total := Z.of_nat (List.length (stored st));
           Stats.pendente := countStatus pendente (stored st);
           Stats.em_analise := countStatus em_analise (stored st);
           Stats.aprovado := countStatus aprovado (stored st);
           Stats.rejeitado := countStatus rejeitado (stored st) |}, st).
Proof.
  intros H. unfold getApplicationStats, bind, getDb. rewrite H. simpl.
  now rewrite DbFacts.filter_all.
Qed.

Lemma bucket_countStatus (s : Status) (l : list Application) :
  StatsView.bucket s
    {| Stats.total := Z.of_nat (List.length l);
       Stats.pendente := countStatus pendente l;
       Stats.em_analise := countStatus em_analise l;
       Stats.aprovado := countStatus aprovado l;
       Stats.rejeitado := countStatus rejeitado l |}
  = countStatus s l.
Proof. now destruct s. Qed.

Lemma countStatus_app_last (s : Status) (l : list Application) (a : Application) :
  countStatus s (l ++ [a])
  = countStatus s l + (if Status_eqb (status a) s then 1 else 0).
Proof.
  unfold countStatus. rewrite filter_app_last, length_app.
  destruct (Status_eqb (status a) s); simpl; lia.
Qed.

(** X3: an accepted submission shows in the statistics as one more
    application and one more pending application; the other three counts
    stay. *)
Theorem submit_counts_as_pending
        (isEmail : string -> bool) (columnsAccept : Insert.t -> bool) (now : Date)
        (ctx : Ctx.t) (input : SubmitInput.t) (st : Server) :
  connected st = true ->
  applications.submitInputSchema isEmail input = true ->
  columnsAccept (applications.applicationOf input) = true ->
  exists out st' before after,
    applications.submit isEmail columnsAccept now ctx input st = (Ok out, st')
    /\ getApplicationStats st = (Ok before, st)
    /\ getApplicationStats st' = (Ok after, st')
    /\ Stats.total after = Stats.total before + 1
    /\ Stats.pendente after = Stats.pendente before + 1
    /\ Stats.em_analise after = Stats.em_analise before
    /\ Stats.aprovado after = Stats.aprovado before
    /\ Stats.rejeitado after = Stats.rejeitado before.
Proof.
  intros Hc Hs Ha.
  pose proof (RouterFacts.submit_accepted isEmail columnsAccept now ctx input st
                Hc Hs Ha) as E. cbv zeta in E.
  do 4 eexists. split; [exact E|].
  split; [now apply getApplicationStats_connected|].
  split; [now apply getApplicationStats_connected|].
  unfold stored. cbn [database rows connected Stats.total Stats.pendente
                        Stats.em_analise Stats.aprovado Stats.rejeitado].
  rewrite !countStatus_app_last, length_app. simpl. repeat split; lia.
Qed.

Lemma submit_counts_as_pending_witness :
  exists out st' before after,
    applications.submit (fun _ => true) Fixtures.withinDeclaredLengths 5000
      Fixtures.createPublicContext Fixtures.submission Fixtures.server
    = (Ok out, st')
    /\ getApplicationStats Fixtures.server = (Ok before, Fixtures.server)
    /\ getApplicationStats st' = (Ok after, st')
    /\ Stats.total after = Stats.total before + 1
    /\ Stats.pendente after = Stats.pendente before + 1.
Proof.
  destruct (submit_counts_as_pending (fun _ => true)
              Fixtures.withinDeclaredLengths 5000 Fixtures.createPublicContext
              Fixtures.submission Fixtures.server eq_refl eq_refl eq_refl)
    as (out & st' & before & after & E & B & A & T & P & _).
  exists out, st', before, after. repeat split; assumption.
Defined.

(** X4: a status update for an id of the [integer] column that no stored
    application has is not an error: for an admin on a connected server
    [updateStatus] answers [success] and the server state is what it
    was. *)
Theorem updateStatus_unknown_id
        (ctx : Ctx.t) (u : User) (st : Server) (id_ : Z) (target : Status) :
  Ctx.user ctx = Some u -> role u = admin -> connected st = true ->
  Int4 id_ ->
  (forall a, In a (stored st) -> id a <> id_) ->
  applications.updateStatus ctx
    {| UpdateStatusInput.id := id_; UpdateStatusInput.status := target |} st
  = (Ok {| UpdateStatusOutput.success := true |}, st).
Proof.
  intros Hu Hr Hc _ Hn. unfold applications.updateStatus.
  rewrite (RouterFacts.adminProcedure_admin ctx u) by assumption.
  unfold applications.updateStatusResolver, bind. simpl.
  rewrite RouterFacts.updateApplicationStatus_connected by assumption.
  rewrite map_unchanged.
  - destruct st as [c [r n]]. simpl in *. now subst c.
  - intros a Ia. specialize (Hn a Ia). apply Z.eqb_neq in Hn. now rewrite Hn.
Qed.

Lemma updateStatus_unknown_id_witness :
  applications.updateStatus Fixtures.createAdminContext
    {| UpdateStatusInput.id := 9; UpdateStatusInput.status := aprovado |}
    Fixtures.server
  = (Ok {| UpdateStatusOutput.success := true |}, Fixtures.server).
Proof.
  apply (updateStatus_unknown_id Fixtures.createAdminContext
           {| userId := 1; openId := "admin-user"; role := admin |});
    try reflexivity.
  - unfold Int4. lia.
  - intros a [<-|[<-|[<-|[]]]]; discriminate.
Defined.

Lemma countStatus_cons (s : Status) (a : Application) (l : list Application) :
  countStatus s (a :: l)
  = (if Status_eqb (status a) s then 1 else 0) + countStatus s l.
Proof.
  unfold countStatus. simpl.
  destruct (Status_eqb (status a) s); simpl length; lia.
Qed.

(** With unique ids, the update moves one application from its bucket to
    the bucket of the target. *)
Lemma countStatus_after_update
      (id_ : Z) (target s : Status) (a : Application) (l : list Application) :
  NoDup (map id l) -> In a l -> id a = id_ ->
  countStatus s (map (fun b => if id b =? id_ then setStatus target b else b) l)
  = countStatus s l
    - (if Status_eqb (status a) s then 1 else 0)
    + (if Status_eqb target s then 1 else 0).
Proof.
  induction l as [|b l IH]; intros N I E; [destruct I|].
  simpl in N. inversion N as [|? ? Nb Nl]; subst.
  cbn [map]. rewrite !countStatus_cons. destruct I as [->|I].
  - rewrite Z.eqb_refl. simpl status.
    rewrite map_unchanged; [lia|].
    intros c Ic. destruct (Z.eqb_spec (id c) (id a)) as [K|]; [|reflexivity].
    exfalso. apply Nb. rewrite <- K. now apply in_map.
  - destruct (Z.eqb_spec (id b) (id a)) as [K|_].
    + exfalso. apply Nb. rewrite K. now apply in_map.
    + rewrite (IH Nl I eq_refl). lia.
Qed.

(** X5: with unique ids, a status update of a stored application moves it
    between the buckets of the statistics: the total stays, the bucket of
    its old status loses one and the bucket of the target gains one (and
    nothing changes when the two are the same). *)
Theorem updateStatus_moves_one_bucket
        (ctx : Ctx.t) (u : User) (st : Server) (a : Application) (target : Status) :
  Ctx.user ctx = Some u -> role u = admin -> connected st = true ->
  NoDup (map id (stored st)) -> In a (stored st) ->
  exists st' before after,
    applications.updateStatus ctx
      {| UpdateStatusInput.id := id a; UpdateStatusInput.status := target |} st
    = (Ok {| UpdateStatusOutput.success := true |}, st')
    /\ getApplicationStats st = (Ok before, st)
    /\ getApplicationStats st' = (Ok after, st')
    /\ Stats.total after = Stats.total before
    /\ forall s,
         StatsView.bucket s after
         = StatsView.bucket s before
           - (if Status_eqb (status a) s then 1 else 0)
           + (if Status_eqb target s then 1 else 0).
Proof.
  intros Hu Hr Hc N I.
  do 3 eexists. split.
  { unfold applications.updateStatus.
    rewrite (RouterFacts.adminProcedure_admin ctx u) by assumption.
    unfold applications.updateStatusResolver, bind. simpl.
    rewrite RouterFacts.updateApplicationStatus_connected by assumption.
    reflexivity. }
  split; [now apply getApplicationStats_connected|].
  split; [now apply getApplicationStats_connected|].
  unfold stored at 1 2 4. cbn [database rows Stats.total].
  split; [now rewrite length_map|].
  intros s. rewrite !bucket_countStatus.
  now apply countStatus_after_update.
Qed.

Lemma updateStatus_moves_one_bucket_witness :
  exists st' before after,
    applications.updateStatus Fixtures.createAdminContext
      {| UpdateStatusInput.id := 2; UpdateStatusInput.status := rejeitado |}
      Fixtures.server
    = (Ok {| UpdateStatusOutput.success := true |}, st')
    /\ getApplicationStats Fixtures.server = (Ok before, Fixtures.server)
    /\ getApplicationStats st' = (Ok after, st')
    /\ Stats.total after = Stats.total before
    /\ Stats.em_analise after = Stats.em_analise before - 1
    /\ Stats.rejeitado after = Stats.rejeitado before + 1.
Proof.
  destruct (updateStatus_moves_one_bucket Fixtures.createAdminContext
              {| userId := 1; openId := "admin-user"; role := admin |}
              Fixtures.server
              (Fixtures.row 2 ["moto"%string] em_analise 3000) rejeitado
              eq_refl eq_refl eq_refl
              (proj1 KeyFacts.fixture_server_wellFormed)
              (or_intror (or_introl eq_refl)))
    as (st' & before & after & E & B & A & T & K).
  exists st', before, after.
  split; [exact E|]. split; [exact B|]. split; [exact A|]. split; [exact T|].
  pose proof (K em_analise) as K1. pose proof (K rejeitado) as K2.
  simpl in K1, K2. split; lia.
Defined.

(** X6: the primary key is an invariant of the two mutations: whatever
    [submit] and [updateStatus] answer, ids stay unique and below the
    sequence. *)
Theorem mutations_keep_primary_key
        (isEmail : string -> bool) (columnsAccept : Insert.t -> bool) (now : Date)
        (ctx : Ctx.t) (input : SubmitInput.t) (upd : UpdateStatusInput.t)
        (st : Server) :
  WellFormed (database st) ->
  WellFormed (database
                (snd (applications.submit isEmail columnsAccept now ctx input st)))
  /\ WellFormed (database (snd (applications.updateStatus ctx upd st))).
Proof.
  intros W. split.
  - unfold applications.submit, publicProcedure, withInput.
    destruct (applications.submitInputSchema isEmail input); [|exact W].
    unfold applications.submitResolver, createApplication, bind, getDb.
    destruct (connected st); simpl; [|exact W].
    destruct (insertReturning columnsAccept now
                (applications.applicationOf input) st) as [[app|e] st'] eqn:E.
    + simpl. now destruct (KeyFacts.insertReturning_wellFormed _ _ _ _ _ _ W E).
    + unfold insertReturning in E.
      destruct (columnsAccept _); [discriminate|]. now injection E as _ <-.
  - unfold applications.updateStatus, adminProcedure, protectedProcedure.
    destruct (Ctx.user ctx) as [u|]; [|exact W].
    destruct (role u); [exact W|]. simpl.
    unfold applications.updateStatusResolver, updateApplicationStatus, bind, getDb.
    destruct (connected st); simpl; [|exact W].
    apply (KeyFacts.updateSetStatus_wellFormed _ _ st W).
Qed.

Lemma mutations_keep_primary_key_witness :
  WellFormed (database
                (snd (applications.submit (fun _ => true)
                        Fixtures.withinDeclaredLengths 5000
                        Fixtures.createPublicContext Fixtures.submission
                        Fixtures.server))).
Proof.
  exact (proj1 (mutations_keep_primary_key (fun _ => true)
                  Fixtures.withinDeclaredLengths 5000
                  Fixtures.createPublicContext Fixtures.submission
                  {| UpdateStatusInput.id := 1;
                     UpdateStatusInput.status := aprovado |}
                  Fixtures.server KeyFacts.fixture_server_wellFormed)).
Defined.

(** X7: the three queries never write: whoever calls, and whether they
    answer or throw, [list], [stats] and the helpers behind them leave the
    server state as it was. *)
Theorem queries_read_only
        (newDate : string -> Date) (ctx : Ctx.t) (st : Server)
        (input : option ListInput.t) (filters : option Filters) (id_ : Z) :
  snd (applications.list newDate ctx input st) = st
  /\ snd (applications.stats ctx st) = st
  /\ snd (listApplications filters st) = st
  /\ snd (getApplicationStats st) = st
  /\ snd (getApplicationById id_ st) = st.
Proof.
  assert (L : forall f, snd (listApplications f st) = st).
  { intros f. unfold listApplications, bind, getDb.
    destruct (connected st); simpl; [|reflexivity].
    destruct f as [[[v|] [av|] [sd|] [ed|]]|]; simpl;
      try destruct (v =? "")%string; reflexivity. }
  assert (S : snd (getApplicationStats st) = st).
  { unfold getApplicationStats, bind, getDb.
    now destruct (connected st). }
  repeat split; auto.
  - unfold applications.list, adminProcedure, protectedProcedure.
    destruct (Ctx.user ctx) as [u|]; [|reflexivity].
    destruct (role u); [reflexivity|]. simpl. apply L.
  - unfold applications.stats, adminProcedure, protectedProcedure.
    destruct (Ctx.user ctx) as [u|]; [|reflexivity].
    destruct (role u); [reflexivity|]. simpl. exact S.
  - unfold getApplicationById, bind, getDb. now destruct (connected st).
Qed.

(** X8: the unfiltered list and the statistics agree: for an admin on a
    connected server, [list] without input returns every stored
    application once, and their number is the [total] of [stats]. *)
Theorem list_all_matches_total
        (newDate : string -> Date) (ctx : Ctx.t) (u : User) (st : Server) :
  Ctx.user ctx = Some u -> role u = admin -> connected st = true ->
  exists res s,
    applications.list newDate ctx None st = (Ok res, st)
    /\ applications.stats ctx st = (Ok s, st)
    /\ Permutation res (stored st)
    /\ Z.of_nat (List.length res) = Stats.total s.
Proof.
  intros Hu Hr Hc. do 2 eexists.
  unfold applications.list, applications.stats.
  rewrite !(RouterFacts.adminProcedure_admin ctx u) by assumption.
  split.
  { unfold applications.listResolver, listApplications, bind, getDb.
    rewrite Hc. simpl. reflexivity. }
  split; [now apply getApplicationStats_connected|].
  rewrite DbFacts.filter_all.
  split; [apply DbFacts.orderByCreatedAtDesc_perm|].
  simpl. f_equal. apply Permutation_length, DbFacts.orderByCreatedAtDesc_perm.
Qed.

Lemma list_all_matches_total_witness :
  exists res s,
    applications.list (fun _ => 0) Fixtures.createAdminContext None Fixtures.server
    = (Ok res, Fixtures.server)
    /\ applications.stats Fixtures.createAdminContext Fixtures.server
       = (Ok s, Fixtures.server)
    /\ Z.of_nat (List.length res) = Stats.total s.
Proof.
  destruct (list_all_matches_total (fun _ => 0) Fixtures.createAdminContext
              {| userId := 1; openId := "admin-user"; role := admin |}
              Fixtures.server eq_refl eq_refl eq_refl)
    as (res & s & L & S & _ & T).
  exists res, s. repeat split; assumption.
Defined.

End FlowFacts.

(** ** The candidate's form *)

Module FormFacts.
Import Js Cpf JsFacts.

Lemma length_app_string (a b : string) :
  String.length (a ++ b) = String.length a + String.length b.
Proof. induction a as [|c a IH]; simpl; congruence. Qed.

Lemma length_slice (b e : nat) (s : string) :
  String.length (slice b e s) = Nat.min (e - b) (String.length s - b).
Proof. unfold slice. apply length_substring. Qed.

Lemma length_sliceFrom (b : nat) (s : string) :
  String.length (sliceFrom b s) = String.length s - b.
Proof. unfold sliceFrom. rewrite length_slice. lia. Qed.

Lemma length_kept (s : string) :
  String.length (slice 0 11 (removeNonDigits s))
  = Nat.min 11 (String.length (removeNonDigits s)).
Proof. rewrite length_slice. lia. Qed.

(** X9: a mask loses no digit it kept: removing the separators from the
    output of [formatCPF] or [formatPhone] gives back the first 11 digits of
    the input, in order. *)
Theorem masks_keep_first_11_digits (s : string) :
  removeNonDigits (formatCPF s) = slice 0 11 (removeNonDigits s)
  /\ removeNonDigits (formatPhone s) = slice 0 11 (removeNonDigits s).
Proof.
  split; [apply CpfFacts.formatCPF_digits | apply CpfFacts.formatPhone_digits].
Qed.

Ltac mask_length :=
  repeat rewrite ?length_app_string, ?length_slice, ?length_sliceFrom;
  cbn [String.length]; lia.

Lemma length_formatCPF (s : string) :
  String.length (formatCPF s)
  = let n := Nat.min 11 (String.length (removeNonDigits s)) in
    n + (if (n <=? 3)%nat then 0
         else if (n <=? 6)%nat then 1
         else if (n <=? 9)%nat then 2 else 3).
Proof.
  cbv zeta. rewrite <- length_kept. unfold formatCPF.
  pose proof (kept_digits_length s) as L.
  set (d := slice 0 11 (removeNonDigits s)) in *.
  destruct (String.length d <=? 3)%nat eqn:E3; [lia|].
  apply Nat.leb_gt in E3.
  destruct (String.length d <=? 6)%nat eqn:E6;
    [apply Nat.leb_le in E6; mask_length|].
  apply Nat.leb_gt in E6.
  destruct (String.length d <=? 9)%nat eqn:E9;
    [apply Nat.leb_le in E9; mask_length|].
  apply Nat.leb_gt in E9. mask_length.
Qed.

Lemma length_formatPhone (s : string) :
  String.length (formatPhone s)
  = let n := Nat.min 11 (String.length (removeNonDigits s)) in
    n + (if (n <=? 2)%nat then 0 else if (n <=? 7)%nat then 3 else 4).
Proof.
  cbv zeta. rewrite <- length_kept. unfold formatPhone.
  pose proof (kept_digits_length s) as L.
  set (d := slice 0 11 (removeNonDigits s)) in *.
  destruct (String.length d <=? 2)%nat eqn:E2; [lia|].
  apply Nat.leb_gt in E2.
  destruct (String.length d <=? 7)%nat eqn:E7;
    [apply Nat.leb_le in E7; mask_length|].
  apply Nat.leb_gt in E7. mask_length.
Qed.

(** X10: the masks are short: [formatCPF] returns at most 14 characters
    and [formatPhone] at most 15, whatever is typed, so the values the form
    holds fit the [cpf] ([varchar(14)]) and [phone] ([varchar(20)])
    columns; and neither is shorter than the digits it kept. *)
Theorem masks_bounded (s : string) :
  String.length (formatCPF s) <= 14
  /\ String.length (formatPhone s) <= 15
  /\ Nat.min 11 (String.length (removeNonDigits s)) <= String.length (formatCPF s)
  /\ Nat.min 11 (String.length (removeNonDigits s))
     <= String.length (formatPhone s).
Proof.
  rewrite length_formatCPF, length_formatPhone. cbv zeta.
  set (n := Nat.min 11 (String.length (removeNonDigits s))).
  assert (n <= 11) by (unfold n; lia).
  destruct (n <=? 3)%nat eqn:E3, (n <=? 6)%nat eqn:E6, (n <=? 9)%nat eqn:E9,
           (n <=? 2)%nat eqn:E2, (n <=? 7)%nat eqn:E7;
    repeat match goal with
           | H : (_ <=? _)%nat = true |- _ => apply Nat.leb_le in H
           | H : (_ <=? _)%nat = false |- _ => apply Nat.leb_gt in H
           end; lia.
Qed.

(** X11: what the length checks on the phone mean: the masked phone that
    [handlePhoneChange] writes has at least 14 characters, as the form
    asks, exactly when at least 10 digits were typed; it falls short of the
    10 characters the server asks for exactly when fewer than 7 digits
    were typed. *)
Theorem masked_phone_length_check (value : string) :
  (14 <= String.length (Form.handlePhoneChange value)
   <-> 10 <= String.length (removeNonDigits value))
  /\ (String.length (Form.handlePhoneChange value) < 10
      <-> String.length (removeNonDigits value) < 7).
Proof.
  unfold Form.handlePhoneChange. rewrite length_formatPhone. cbv zeta.
  set (n := Nat.min 11 (String.length (removeNonDigits value))).
  assert (N : n = Nat.min 11 (String.length (removeNonDigits value)))
    by reflexivity.
  destruct (n <=? 2)%nat eqn:E2, (n <=? 7)%nat eqn:E7;
    repeat match goal with
           | H : (_ <=? _)%nat = true |- _ => apply Nat.leb_le in H
           | H : (_ <=? _)%nat = false |- _ => apply Nat.leb_gt in H
           end; lia.
Qed.

Lemma isValidCPF_digits_only (s t : string) :
  removeNonDigits s = removeNonDigits t -> isValidCPF s = isValidCPF t.
Proof. unfold isValidCPF. now intros ->. Qed.

(** X12: validity is a matter of the digits alone, so the mask does not
    change it unless it cuts digits off: two strings with the same digits
    are valid together, a string with at most 11 digits is valid exactly
    when its masked form is, and the masked form of a valid CPF is valid
    and has the full 14 characters. *)
Theorem isValidCPF_through_mask :
  (forall s t, removeNonDigits s = removeNonDigits t ->
               isValidCPF s = isValidCPF t)
  /\ (forall s, String.length (removeNonDigits s) <= 11 ->
                isValidCPF (Form.handleCPFChange s) = isValidCPF s)
  /\ (forall s, isValidCPF s = true ->
                isValidCPF (Form.handleCPFChange s) = true
                /\ String.length (Form.handleCPFChange s) = 14).
Proof.
  assert (K : forall s, String.length (removeNonDigits s) <= 11 ->
                        isValidCPF (formatCPF s) = isValidCPF s).
  { intros s L. apply isValidCPF_digits_only.
    rewrite CpfFacts.formatCPF_digits. unfold slice. now apply substring_whole. }
  split; [exact isValidCPF_digits_only|]. split; [exact K|].
  intros s V. unfold Form.handleCPFChange.
  pose proof (proj1 (ChecksumFacts.isValidCPF_unfold s) V) as (L & _).
  split; [rewrite K; [exact V | lia]|].
  rewrite length_formatCPF, L. reflexivity.
Qed.

Lemma isValidCPF_through_mask_witness :
  isValidCPF (Form.handleCPFChange "52998224725") = true
  /\ String.length (Form.handleCPFChange "52998224725") = 14.
Proof.
  apply (proj2 (proj2 isValidCPF_through_mask)). reflexivity.
Defined.

Lemma weightedLoop_ext (a b : string) (w : Z) :
  forall n, (forall i, i < n -> parseIntAt a i = parseIntAt b i) ->
            weightedLoop a n w = weightedLoop b n w.
Proof.
  unfold weightedLoop. induction n as [|n IH]; intros H; [reflexivity|].
  rewrite seq_S, !fold_left_app. simpl.
  rewrite IH by (intros i Hi; apply H; lia).
  now rewrite (H n) by lia.
Qed.

Lemma parseIntAt_slice (s : string) (n : nat) :
  forall i, i < n -> parseIntAt (slice 0 n s) i = parseIntAt s i.
Proof.
  unfold slice, parseIntAt. rewrite Nat.sub_0_r.
  revert n. induction s as [|c s IH]; intros n i Hi.
  - destruct n; reflexivity.
  - destruct n as [|n]; [lia|]. simpl.
    destruct i as [|i]; [reflexivity|]. apply IH. lia.
Qed.

(** Two strings of the same length that agree at every index are equal. *)
Lemma string_ext (a : string) :
  forall b, String.length a = String.length b ->
            (forall i, i < String.length a -> get i a = get i b) -> a = b.
Proof.
  induction a as [|c a IH]; intros [|c' b] L H; try discriminate L;
    [reflexivity|].
  simpl in L. f_equal.
  - specialize (H 0 (Nat.lt_0_succ _)). simpl in H. congruence.
  - apply IH; [lia|]. intros i Hi. apply (H (S i)). simpl. lia.
Qed.

Lemma get_of_clean (s : string) (i : nat) :
  removeNonDigits s = s -> i < String.length s ->
  exists c, get i s = Some c /\ parseIntAt s i = digitValue c.
Proof.
  intros _. revert i. induction s as [|c s IH]; intros i Hi; simpl in Hi; [lia|].
  destruct i as [|i].
  - exists c. split; reflexivity.
  - destruct (IH i ltac:(lia)) as (c' & G & P). exists c'.
    split; [exact G|]. unfold parseIntAt in *. simpl. exact P.
Qed.

(** X13: the first nine digits decide the rest: two valid CPFs that agree
    on their first nine digits have the same eleven digits. *)
Theorem check_digits_determined (s t : string) :
  isValidCPF s = true -> isValidCPF t = true ->
  slice 0 9 (removeNonDigits s) = slice 0 9 (removeNonDigits t) ->
  removeNonDigits s = removeNonDigits t.
Proof.
  intros Vs Vt E.
  apply ChecksumFacts.isValidCPF_unfold in Vs as (Ls & _ & S9 & S10).
  apply ChecksumFacts.isValidCPF_unfold in Vt as (Lt & _ & T9 & T10).
  pose proof (removeNonDigits_idem s) as Cs.
  pose proof (removeNonDigits_idem t) as Ct.
  set (a := removeNonDigits s) in *. set (b := removeNonDigits t) in *.
  assert (P : forall i, i < 9 -> parseIntAt a i = parseIntAt b i).
  { intros i Hi. rewrite <- (parseIntAt_slice a 9 i Hi), E.
    now apply parseIntAt_slice. }
  assert (P9 : parseIntAt a 9 = parseIntAt b 9).
  { rewrite <- S9, <- T9. f_equal. now apply weightedLoop_ext. }
  assert (Q : forall i, i < 10 -> parseIntAt a i = parseIntAt b i).
  { intros i Hi. destruct (Nat.eq_dec i 9) as [->|]; [exact P9|].
    apply P. lia. }
  assert (P10 : parseIntAt a 10 = parseIntAt b 10).
  { rewrite <- S10, <- T10. f_equal. now apply weightedLoop_ext. }
  apply string_ext; [congruence|].
  intros i Hi.
  assert (R : parseIntAt a i = parseIntAt b i).
  { destruct (Nat.eq_dec i 10) as [->|]; [exact P10|]. apply Q. lia. }
  destruct (get_of_clean a i Cs Hi) as (c & Ga & Pa).
  destruct (get_of_clean b i Ct ltac:(lia)) as (c' & Gb & Pb).
  rewrite Ga, Gb. f_equal.
  apply ChecksumFacts.digitValue_inj. congruence.
Qed.

Lemma check_digits_determined_witness :
  removeNonDigits "529.982.247-25" = removeNonDigits "529 982 247 25".
Proof.
  apply check_digits_determined; reflexivity.
Defined.

(** X14: the form is at least as strict as the server: data that
    [formSchema] accepts passes the schema of [applications.submit], so a
    submission the form lets through is never refused as invalid input. *)
Theorem formSchema_implies_submitInputSchema
        (isEmail : string -> bool) (columnsAccept : Insert.t -> bool)
        (now : Schema.Date) (ctx : Ctx.t) (data : SubmitInput.t)
        (st : Effects.Server) :
  Form.formSchema isEmail data = true ->
  Router.applications.submitInputSchema isEmail data = true
  /\ Router.applications.submit isEmail columnsAccept now ctx data st
     <> (Effects.Throw Effects.InputRejected, st).
Proof.
  intros H.
  assert (V : Router.applications.submitInputSchema isEmail data = true).
  { unfold Form.formSchema in H. unfold Router.applications.submitInputSchema.
    repeat (apply andb_true_iff in H as [H ?]).
    repeat (apply andb_true_iff; split); try assumption.
    match goal with
    | P : (14 <=? _)%nat = true |- _ =>
        apply Nat.leb_le in P; apply Nat.leb_le; lia
    end. }
  split; [exact V|].
  unfold Router.applications.submit, Router.publicProcedure, Router.withInput.
  rewrite V. apply RouterFacts.submitResolver_not_rejected.
Qed.

Lemma formSchema_implies_submitInputSchema_witness :
  Form.formSchema (fun _ => true) Fixtures.submission = true
  /\ Router.applications.submitInputSchema (fun _ => true) Fixtures.submission
     = true.
Proof.
  split; [reflexivity|].
  apply (formSchema_implies_submitInputSchema (fun _ => true) (fun _ => true)
           0%Z Fixtures.createPublicContext Fixtures.submission Fixtures.server).
  reflexivity.
Defined.

(** *** The vehicle checkboxes *)

Lemma includes_In (l : list string) (v : string) :
  Db.includes l v = true <-> In v l.
Proof.
  rewrite DbFacts.includes_in_dec.
  destruct (in_dec string_dec v l); split; auto; discriminate.
Qed.

Lemma includes_toggle (l : list string) (c v : string) :
  Db.includes (Form.handleVehicleToggle l c) v
  = if string_dec c v then negb (Db.includes l v) else Db.includes l v.
Proof.
  apply eq_true_iff_eq. rewrite includes_In. unfold Form.handleVehicleToggle.
  destruct (Db.includes l c) eqn:I.
  - rewrite filter_In, negb_true_iff, String.eqb_neq.
    destruct (string_dec c v) as [->|N].
    + rewrite I. simpl. split; [intros [_ K]; now elim K | discriminate].
    + rewrite includes_In. split; [tauto|]. intros K. split; [exact K|].
      intros ->. now apply N.
  - rewrite in_app_iff. simpl.
    destruct (string_dec c v) as [->|N].
    + rewrite I. simpl. split; auto.
    + rewrite includes_In. split; [|tauto]. intros [K|[K|[]]]; [exact K|].
      now elim N.
Qed.

Lemma NoDup_toggle (l : list string) (c : string) :
  NoDup l -> NoDup (Form.handleVehicleToggle l c).
Proof.
  intros D. unfold Form.handleVehicleToggle.
  destruct (Db.includes l c) eqn:I.
  - now apply NoDup_filter.
  - apply NoDup_app; [exact D | repeat constructor; intros [] |].
    intros x Hx [<-|[]]. apply includes_In in Hx. congruence.
Qed.

(** X15: a click on a vehicle checkbox flips that vehicle and no other:
    after [handleVehicleToggle] the vehicle is selected exactly when it
    was not, every other vehicle is selected exactly when it was, and a
    selection without repetitions stays without repetitions. *)
Theorem handleVehicleToggle_flips (selected : list string) (vehicleId : string) :
  (In vehicleId (Form.handleVehicleToggle selected vehicleId)
   <-> ~ In vehicleId selected)
  /\ (forall v, v <> vehicleId ->
        (In v (Form.handleVehicleToggle selected vehicleId) <-> In v selected))
  /\ (NoDup selected -> NoDup (Form.handleVehicleToggle selected vehicleId)).
Proof.
  split; [|split].
  - rewrite <- !includes_In, includes_toggle.
    destruct (string_dec vehicleId vehicleId) as [_|N]; [|now elim N].
    destruct (Db.includes selected vehicleId); simpl.
    + split; [discriminate|]. intros K. now elim K.
    + split; [discriminate | reflexivity].
  - intros v N. rewrite <- !includes_In, includes_toggle.
    destruct (string_dec vehicleId v) as [->|_]; [now elim N | reflexivity].
  - apply NoDup_toggle.
Qed.

Lemma includes_toggles (clicks : list string) (v : string) :
  forall l,
    Db.includes (fold_left Form.handleVehicleToggle clicks l) v
    = xorb (Db.includes l v) (Nat.odd (count_occ string_dec clicks v)).
Proof.
  induction clicks as [|c clicks IH]; intros l; simpl.
  - now rewrite xorb_false_r.
  - rewrite IH, includes_toggle.
    destruct (string_dec c v) as [_|_]; [|reflexivity].
    rewrite Nat.odd_succ, <- Nat.negb_odd.
    now destruct (Db.includes l v), (Nat.odd (count_occ string_dec clicks v)).
Qed.

Lemma NoDup_toggles (clicks : list string) :
  forall l, NoDup l -> NoDup (fold_left Form.handleVehicleToggle clicks l).
Proof.
  induction clicks as [|c clicks IH]; intros l D; simpl; [exact D|].
  apply IH. now apply NoDup_toggle.
Qed.

(** X16: whatever the sequence of clicks, the selection the form holds has
    no repetition, a vehicle is in it exactly when it was clicked an odd
    number of times, and, the checkboxes being those of [vehicleOptions],
    it holds only those tags, at most five of them. *)
Theorem toggles_selection (clicks : list string) :
  NoDup (Form.toggles clicks)
  /\ (forall v, In v (Form.toggles clicks)
                <-> Nat.odd (count_occ string_dec clicks v) = true)
  /\ ((forall v, In v clicks -> In v Form.vehicleOptions) ->
      (forall v, In v (Form.toggles clicks) -> In v Form.vehicleOptions)
      /\ List.length (Form.toggles clicks) <= 5).
Proof.
  assert (D : NoDup (Form.toggles clicks))
    by (apply NoDup_toggles; constructor).
  assert (P : forall v, In v (Form.toggles clicks)
                        <-> Nat.odd (count_occ string_dec clicks v) = true).
  { intros v. rewrite <- includes_In. unfold Form.toggles.
    rewrite includes_toggles. reflexivity. }
  split; [exact D|]. split; [exact P|].
  intros H.
  assert (I : forall v, In v (Form.toggles clicks) -> In v Form.vehicleOptions).
  { intros v Hv. apply H. apply P in Hv.
    destruct (in_dec string_dec v clicks) as [K|K]; [exact K|].
    apply (count_occ_not_In string_dec) in K. rewrite K in Hv. discriminate. }
  split; [exact I|].
  apply (NoDup_incl_length D I).
Qed.

Lemma toggles_selection_witness :
  (forall v, In v (Form.toggles ["moto"; "van"; "moto"]%string)
             -> In v Form.vehicleOptions)
  /\ List.length (Form.toggles ["moto"; "van"; "moto"]%string) <= 5.
Proof.
  apply (proj2 (proj2 (toggles_selection ["moto"; "van"; "moto"]%string))).
  intros v [<-|[<-|[<-|[]]]]; simpl; tauto.
Defined.

End FormFacts.

(** ** The admin panel's list query *)

Module PanelFacts.
Import Schema Effects Db Spec Router.

Local Open Scope Z_scope.

Lemma availabilityEnum_none (s : string) :
  Panel.availabilityEnum s = None
  <-> ~ In s ["imediata"; "15_dias"; "30_dias"]%string.
Proof.
  unfold Panel.availabilityEnum. simpl.
  destruct (String.eqb_spec s "imediata") as [->|N1].
  { split; [discriminate|]. intros K. elim K. now left. }
  destruct (String.eqb_spec s "15_dias") as [->|N2].
  { split; [discriminate|]. intros K. elim K. right. now left. }
  destruct (String.eqb_spec s "30_dias") as [->|N3].
  { split; [discriminate|]. intros K. elim K. right. right. now left. }
  split; [|reflexivity]. intros _ [K|[K|[K|[]]]]; congruence.
Qed.

(** [listApplications] answers or throws the missing database, never the
    error of a schema. *)
Lemma listApplications_not_rejected (filters : option Filters) (st : Server) :
  listApplications filters st <> (Throw InputRejected, st).
Proof.
  unfold listApplications, bind, getDb.
  destruct (connected st); simpl; [|discriminate].
  destruct filters as [[[v|] [av|] [sd|] [ed|]]|]; simpl;
    try destruct (v =? "")%string; discriminate.
Qed.

(** X17: the list query of the panel passes the schema of
    [applications.list] only while an availability is chosen: for an
    admin, the query built from the panel's filters is refused as invalid
    input exactly when the availability held by the panel is not one of
    'imediata', '15_dias', '30_dias' (the cast sends the string as it is),
    which is the case of the initial and of the cleared filters, whose
    availability is the empty string. *)
Theorem panel_list_query_refused
        (newDate : string -> Date) (ctx : Ctx.t) (u : User) (st : Server)
        (filters : Panel.Filters) :
  Ctx.user ctx = Some u -> role u = admin ->
  (Panel.listReceived newDate ctx (Some (Panel.listQueryInput filters)) st
   = (Throw InputRejected, st)
   <-> ~ In (Panel.availability filters) ["imediata"; "15_dias"; "30_dias"]%string)
  /\ Panel.listReceived newDate ctx
       (Some (Panel.listQueryInput (Panel.clearFilters filters))) st
     = (Throw InputRejected, st).
Proof.
  intros Hu Hr. unfold Panel.listReceived.
  rewrite !(RouterFacts.adminProcedure_admin ctx u) by assumption.
  split; [|reflexivity].
  rewrite <- availabilityEnum_none.
  unfold Panel.listInputSchema, Panel.listQueryInput. simpl.
  destruct (Panel.availabilityEnum (Panel.availability filters)) as [av|].
  - split; [|discriminate]. intros K. exfalso.
    unfold applications.listResolver in K.
    now apply listApplications_not_rejected in K.
  - split; reflexivity.
Qed.

Lemma panel_list_query_refused_witness :
  Panel.listReceived (fun _ => 0) Fixtures.createAdminContext
    (Some (Panel.listQueryInput Panel.initialFilters)) Fixtures.server
  = (Throw InputRejected, Fixtures.server)
  /\ Panel.listReceived (fun _ => 0) Fixtures.createAdminContext
       (Some (Panel.listQueryInput
                {| Panel.vehicleType := "carro"; Panel.availability := "all";
                   Panel.startDate := ""; Panel.endDate := "" |}))
       Fixtures.server
     = (Throw InputRejected, Fixtures.server).
Proof.
  split.
  - apply (proj2 (panel_list_query_refused (fun _ => 0)
                    Fixtures.createAdminContext
                    {| userId := 1; openId := "admin-user"; role := admin |}
                    Fixtures.server Panel.initialFilters eq_refl eq_refl)).
  - apply (proj1 (panel_list_query_refused (fun _ => 0)
                    Fixtures.createAdminContext
                    {| userId := 1; openId := "admin-user"; role := admin |}
                    Fixtures.server
                    {| Panel.vehicleType := "carro"; Panel.availability := "all";
                       Panel.startDate := ""; Panel.endDate := "" |}
                    eq_refl eq_refl)).
    simpl. intros [K|[K|[K|[]]]]; discriminate K.
Defined.

Lemma dateOf_orUndefined (newDate : string -> Date) (s : string) :
  applications.dateOf newDate (Panel.orUndefined s)
  = option_map newDate (Panel.orUndefined s).
Proof.
  unfold Panel.orUndefined, applications.dateOf.
  destruct (truthy (Some s)) eqn:T; [|reflexivity].
  cbv beta iota. rewrite T. reflexivity.
Qed.

(** X18: what an accepted query of the panel asks of the database: with an
    availability of the enum chosen, an admin gets the answer of
    [listApplications] for that availability, the vehicle type and the
    dates that are not empty (made dates by [new Date]); and a vehicle
    type that no stored application has, as the 'all' of the item 'Todos',
    makes the answer of a connected server empty. *)
Theorem panel_list_query_accepted
        (newDate : string -> Date) (ctx : Ctx.t) (u : User) (st : Server)
        (filters : Panel.Filters) (av : Availability) :
  Ctx.user ctx = Some u -> role u = admin ->
  Panel.availabilityEnum (Panel.availability filters) = Some av ->
  Panel.listReceived newDate ctx (Some (Panel.listQueryInput filters)) st
  = listApplications
      (Some {| vehicleType := Panel.orUndefined (Panel.vehicleType filters);
               f_availability := Some av;
               startDate :=
                 option_map newDate (Panel.orUndefined (Panel.startDate filters));
               endDate :=
                 option_map newDate (Panel.orUndefined (Panel.endDate filters)) |})
      st
  /\ (connected st = true ->
      Panel.vehicleType filters <> ""%string ->
      (forall a, In a (stored st) ->
                 ~ In (Panel.vehicleType filters) (vehicleTypes a)) ->
      Panel.listReceived newDate ctx (Some (Panel.listQueryInput filters)) st
      = (Ok [], st)).
Proof.
  intros Hu Hr Hav.
  set (f := Some {| vehicleType := Panel.orUndefined (Panel.vehicleType filters);
                    f_availability := Some av;
                    startDate :=
                      option_map newDate
                        (Panel.orUndefined (Panel.startDate filters));
                    endDate :=
                      option_map newDate
                        (Panel.orUndefined (Panel.endDate filters)) |}).
  assert (E : Panel.listReceived newDate ctx
                (Some (Panel.listQueryInput filters)) st
              = listApplications f st).
  { unfold Panel.listReceived.
    rewrite (RouterFacts.adminProcedure_admin ctx u) by assumption.
    unfold Panel.listInputSchema, Panel.listQueryInput. simpl. rewrite Hav.
    unfold applications.listResolver. simpl.
    now rewrite !dateOf_orUndefined. }
  split; [exact E|].
  intros Hc Hv Hn. rewrite E.
  destruct (DbFacts.listApplications_shape st f Hc) as (cond & post & R & K).
  rewrite R. f_equal. f_equal.
  apply FlowFacts.filter_none. intros a Ia.
  destruct (post a) eqn:P; [exfalso|reflexivity].
  assert (Ia' : In a (stored st) /\ cond a = true).
  { apply filter_In.
    now apply (Permutation_in _ (DbFacts.orderByCreatedAtDesc_perm _)). }
  destruct Ia' as [Is C].
  assert (S : satisfiesGiven f a = true) by (rewrite <- K, C, P; reflexivity).
  apply DbFacts.satisfiesGiven_spec in S.
  destruct (S _ eq_refl) as (_ & _ & _ & V).
  apply (Hn a Is), V; [|exact Hv].
  simpl. unfold Panel.orUndefined, truthy.
  apply String.eqb_neq in Hv. now rewrite Hv.
Qed.

Lemma panel_list_query_accepted_witness :
  Panel.listReceived (fun _ => 0) Fixtures.createAdminContext
    (Some (Panel.listQueryInput
             {| Panel.vehicleType := "all"; Panel.availability := "imediata";
                Panel.startDate := ""; Panel.endDate := "" |}))
    Fixtures.server
  = (Ok [], Fixtures.server).
Proof.
  apply (proj2 (panel_list_query_accepted (fun _ => 0)
                  Fixtures.createAdminContext
                  {| userId := 1; openId := "admin-user"; role := admin |}
                  Fixtures.server
                  {| Panel.vehicleType := "all"; Panel.availability := "imediata";
                     Panel.startDate := ""; Panel.endDate := "" |}
                  imediata eq_refl eq_refl eq_refl)).
  - reflexivity.
  - discriminate.
  - intros a [<-|[<-|[<-|[]]]]; simpl; intuition discriminate.
Defined.

End PanelFacts.

(** ** The users *)

Module UsersFacts.
Import Effects Users.

Local Open Scope Z_scope.

Lemma limit1_nonempty {A} (l : list A) :
  (0 <? List.length (firstn 1 l))%nat
  = match hd_error l with Some _ => true | None => false end.
Proof. destruct l as [|a [|b l]]; reflexivity. Qed.



Lemma lookup_none (o : string) (st : Store) :
  lookup o st = None <-> (forall u, In u (table st) -> openId u <> o).
Proof.
  unfold lookup. rewrite RouterFacts.hd_error_filter_none.
  split; intros H u Hu; specialize (H u Hu).
  - now apply String.eqb_neq.
  - now apply String.eqb_neq.
Qed.

Lemma truthy_openId (o : string) :
  Db.truthy (Some o) = negb (o =? "")%string.
Proof. reflexivity. Qed.

(** What [upsertUser] does on a connected store, by the row found. *)
Lemma upsertUser_connected
      (insertAccepts : InsertData -> bool) (updateAccepts : UpdateData -> bool)
      (jsNow dbNow : Schema.Date) (user : InsertUser.t) (st : Store) :
  connected st = true -> InsertUser.openId user <> ""%string ->
  upsertUser insertAccepts updateAccepts jsNow dbNow user st
  = match lookup (InsertUser.openId user) st with
    | Some _ =>
        updateByOpenId updateAccepts (updateDataOf jsNow user)
          (InsertUser.openId user) st
    | None => insertUser insertAccepts dbNow (insertDataOf jsNow user) st
    end.
Proof.
  intros Hc Ho. unfold upsertUser. rewrite truthy_openId.
  apply String.eqb_neq in Ho. rewrite Ho. simpl.
  unfold bind at 1. unfold getDb. rewrite Hc. simpl.
  unfold tryCatch, bind, selectByOpenId, throw. rewrite limit1_nonempty.
  fold (lookup (InsertUser.openId user) st).
  destruct (lookup (InsertUser.openId user) st).
  - now destruct (updateByOpenId _ _ _ st) as [[[]|e] st'].
  - now destruct (insertUser _ _ _ st) as [[[]|e] st'].
Qed.

Lemma upsertUser_no_openId
      (insertAccepts : InsertData -> bool) (updateAccepts : UpdateData -> bool)
      (jsNow dbNow : Schema.Date) (user : InsertUser.t) (st : Store) :
  InsertUser.openId user = ""%string ->
  upsertUser insertAccepts updateAccepts jsNow dbNow user st
  = (Throw (Error "User openId is required for upsert"), st).
Proof.
  intros H. unfold upsertUser. rewrite H. reflexivity.
Qed.

Lemma upsertUser_disconnected
      (insertAccepts : InsertData -> bool) (updateAccepts : UpdateData -> bool)
      (jsNow dbNow : Schema.Date) (user : InsertUser.t) (st : Store) :
  connected st = false -> InsertUser.openId user <> ""%string ->
  upsertUser insertAccepts updateAccepts jsNow dbNow user st = (Ok tt, st).
Proof.
  intros Hc Ho. unfold upsertUser. rewrite truthy_openId.
  apply String.eqb_neq in Ho. rewrite Ho. simpl.
  unfold bind, getDb. now rewrite Hc.
Qed.

(** X19: [upsertUser] refuses a user without [openId] before it looks at
    the database: it throws 'User openId is required for upsert', on a
    connected store and on a missing one alike, and writes nothing. *)
Theorem upsertUser_requires_openId
        (insertAccepts : InsertData -> bool) (updateAccepts : UpdateData -> bool)
        (jsNow dbNow : Schema.Date) (user : InsertUser.t) (st : Store) :
  InsertUser.openId user = ""%string ->
  upsertUser insertAccepts updateAccepts jsNow dbNow user st
  = (Throw (Error "User openId is required for upsert"), st).
Proof. apply upsertUser_no_openId. Qed.

Lemma upsertUser_requires_openId_witness :
  upsertUser (fun _ => true) (fun _ => true) 500 500 (UserFixtures.signIn "")
    UserFixtures.store
  = (Throw (Error "User openId is required for upsert"), UserFixtures.store).
Proof.
  apply upsertUser_requires_openId. reflexivity.
Defined.

(** X20: without a database handle the user helpers do not throw, unlike
    the application helpers: [upsertUser] returns without recording the
    sign-in and [getUserByOpenId] answers [undefined]; the store is
    untouched. *)
Theorem user_helpers_without_database
        (insertAccepts : InsertData -> bool) (updateAccepts : UpdateData -> bool)
        (jsNow dbNow : Schema.Date) (user : InsertUser.t) (o : string)
        (st : Store) :
  connected st = false -> InsertUser.openId user <> ""%string ->
  upsertUser insertAccepts updateAccepts jsNow dbNow user st = (Ok tt, st)
  /\ getUserByOpenId o st = (Ok None, st).
Proof.
  intros Hc Ho. split.
  - now apply upsertUser_disconnected.
  - unfold getUserByOpenId, bind, getDb. now rewrite Hc.
Qed.

Lemma user_helpers_without_database_witness :
  upsertUser (fun _ => true) (fun _ => true) 500 500
    (UserFixtures.signIn "new-user")
    {| connected := false; table := table UserFixtures.store; nextId := 3 |}
  = (Ok tt,
     {| connected := false; table := table UserFixtures.store; nextId := 3 |})
  /\ getUserByOpenId "admin-user"
       {| connected := false; table := table UserFixtures.store; nextId := 3 |}
     = (Ok None,
        {| connected := false; table := table UserFixtures.store; nextId := 3 |}).
Proof.
  apply user_helpers_without_database; [reflexivity | discriminate].
Defined.

Lemma filter_map_update (d : UpdateData) (o o' : string) (l : list User) :
  filter (fun u => (openId u =? o')%string)
         (map (fun u => if (openId u =? o)%string then applyUpdate d u else u) l)
  = map (fun u => if (openId u =? o)%string then applyUpdate d u else u)
        (filter (fun u => (openId u =? o')%string) l).
Proof.
  induction l as [|u l IH]; simpl; [reflexivity|].
  assert (K : openId (if (openId u =? o)%string then applyUpdate d u else u)
              = openId u) by now destruct (openId u =? o)%string.
  rewrite K. destruct (openId u =? o')%string; simpl; now rewrite IH.
Qed.

Lemma lookup_after_update (d : UpdateData) (o o' : string) (st : Store) :
  lookup o'
    {| connected := connected st;
       table := map (fun u => if (openId u =? o)%string
                              then applyUpdate d u else u) (table st);
       nextId := nextId st |}
  = option_map (fun u => if (openId u =? o)%string then applyUpdate d u else u)
      (lookup o' st).
Proof.
  unfold lookup. simpl. rewrite filter_map_update.
  now destruct (filter _ (table st)).
Qed.

Lemma lookup_after_insert (new : User) (o' : string) (st : Store) :
  lookup o'
    {| connected := connected st;
       table := (table st ++ [new])%list;
       nextId := nextId st + 1 |}
  = match lookup o' st with
    | Some u => Some u
    | None => if (openId new =? o')%string then Some new else None
    end.
Proof.
  unfold lookup. simpl. rewrite FlowFacts.filter_app_last.
  destruct (filter _ (table st)); simpl; [|reflexivity].
  now destruct (openId new =? o')%string.
Qed.




(** The three outcomes of [upsertUser] for the store: untouched, one row
    rewritten in place, or one row appended. *)
Lemma upsertUser_store
      (insertAccepts : InsertData -> bool) (updateAccepts : UpdateData -> bool)
      (jsNow dbNow : Schema.Date) (user : InsertUser.t) (st : Store) :
  let st' := snd (upsertUser insertAccepts updateAccepts jsNow dbNow user st) in
  st' = st
  \/ (lookup (InsertUser.openId user) st <> None
      /\ st' = {| connected := connected st;
                  table := map (fun u =>
                                  if (openId u =? InsertUser.openId user)%string
                                  then applyUpdate (updateDataOf jsNow user) u
                                  else u) (table st);
                  nextId := nextId st |})
  \/ (lookup (InsertUser.openId user) st = None
      /\ exists new,
           openId new = InsertUser.openId user
           /\ id new = nextId st
           /\ new = applyUpdate (updateDataOf jsNow user) new
           /\ st' = {| connected := connected st;
                       table := (table st ++ [new])%list;
                       nextId := nextId st + 1 |}).
Proof.
  cbv zeta.
  destruct (String.eqb_spec (InsertUser.openId user) "") as [E|N].
  { left. now rewrite upsertUser_no_openId. }
  destruct (connected st) eqn:C.
  2:{ left. now rewrite upsertUser_disconnected. }
  rewrite (upsertUser_connected _ _ _ _ _ _ C N).
  destruct (lookup (InsertUser.openId user) st) as [before|] eqn:L.
  - unfold updateByOpenId.
    destruct (updateAccepts _); [|now left].
    right. left. split; [discriminate | now rewrite C].
  - unfold insertUser.
    destruct (insertAccepts _); [|now left].
    right. right. split; [reflexivity|].
    eexists. split; [|split; [|split; [|rewrite C; reflexivity]]];
      try reflexivity.
    unfold applyUpdate, updateDataOf, insertDataOf. simpl.
    destruct user as [o [n|] [e|] [m|] [r|]]; reflexivity.
Qed.

(** X22: [upsertUser] keeps the unique constraint and the primary key:
    whatever it answers, no two users share an [openId] or an id
    afterwards, and every id is below the sequence. *)
Theorem upsertUser_keeps_unique
        (insertAccepts : InsertData -> bool) (updateAccepts : UpdateData -> bool)
        (jsNow dbNow : Schema.Date) (user : InsertUser.t) (st : Store) :
  WellFormed st ->
  WellFormed (snd (upsertUser insertAccepts updateAccepts jsNow dbNow user st)).
Proof.
  intros (No & Ni & F).
  destruct (upsertUser_store insertAccepts updateAccepts jsNow dbNow user st)
    as [->|[(_ & ->)|(L & new & Eo & Ei & _ & ->)]].
  - now repeat split.
  - unfold WellFormed. simpl. rewrite !map_map.
    repeat split.
    + erewrite map_ext; [exact No|]. intros u. now destruct (openId u =? _)%string.
    + erewrite map_ext; [exact Ni|]. intros u. now destruct (openId u =? _)%string.
    + apply Forall_map. eapply Forall_impl; [|exact F].
      intros u Hu. now destruct (openId u =? _)%string.
  - unfold WellFormed. simpl. rewrite !map_app. simpl.
    repeat split.
    + apply NoDup_app; [exact No | repeat constructor; intros [] |].
      intros x Hx [<-|[]]. apply in_map_iff in Hx as (u & Eu & Iu).
      apply (proj1 (lookup_none _ _) L u Iu). congruence.
    + apply NoDup_app; [exact Ni | repeat constructor; intros [] |].
      intros x Hx [<-|[]]. apply in_map_iff in Hx as (u & Eu & Iu).
      rewrite Forall_forall in F. specialize (F u Iu). lia.
    + apply Forall_app. split.
      * eapply Forall_impl; [|exact F]. simpl. intros u Hu. lia.
      * repeat constructor. lia.
Qed.

Lemma upsertUser_keeps_unique_witness :
  WellFormed (snd (upsertUser (fun _ => true) (fun _ => true) 500 600
                     (UserFixtures.signIn "new-user") UserFixtures.store)).
Proof.
  apply upsertUser_keeps_unique. unfold WellFormed. simpl.
  repeat split; repeat constructor; simpl; intuition discriminate.
Defined.



Lemma applyUpdate_twice (d : UpdateData) (u : User) :
  applyUpdate d (applyUpdate d u) = applyUpdate d u.
Proof.
  unfold applyUpdate. simpl.
  destruct d as [t [n|] [e|] [m|] [r|]]; reflexivity.
Qed.

(** X24: signing in twice is signing in once: a second [upsertUser] with
    the same user at the same time leaves the store as the first left it
    (no second row, no field changed), whether or not the database accepts
    the statements. *)
Theorem upsertUser_twice
        (insertAccepts : InsertData -> bool) (updateAccepts : UpdateData -> bool)
        (jsNow dbNow : Schema.Date) (user : InsertUser.t) (st : Store) :
  snd (upsertUser insertAccepts updateAccepts jsNow dbNow user
         (snd (upsertUser insertAccepts updateAccepts jsNow dbNow user st)))
  = snd (upsertUser insertAccepts updateAccepts jsNow dbNow user st).
Proof.
  assert (Ff : forall u,
             (fun u => if (openId u =? InsertUser.openId user)%string
                       then applyUpdate (updateDataOf jsNow user) u else u)
               (if (openId u =? InsertUser.openId user)%string
                then applyUpdate (updateDataOf jsNow user) u else u)
             = (if (openId u =? InsertUser.openId user)%string
                then applyUpdate (updateDataOf jsNow user) u else u)).
  { intros u. destruct (openId u =? _)%string eqn:E; simpl.
    - rewrite E. apply applyUpdate_twice.
    - now rewrite E. }
  destruct (upsertUser_store insertAccepts updateAccepts jsNow dbNow user st)
    as [E|[(L & E)|(L & new & Eo & Ei & En & E)]]; cbv zeta in E.
  - now rewrite !E.
  - rewrite E.
    match goal with
    | |- snd (upsertUser _ _ _ _ _ ?s) = _ =>
        destruct (upsertUser_store insertAccepts updateAccepts jsNow dbNow user s)
          as [K|[(_ & K)|(L' & _)]]; cbv zeta in *
    end.
    + exact K.
    + rewrite K. simpl. rewrite map_map. f_equal. now apply map_ext.
    + exfalso. rewrite lookup_after_update in L'.
      destruct (lookup (InsertUser.openId user) st); [discriminate|].
      now apply L.
  - rewrite E.
    match goal with
    | |- snd (upsertUser _ _ _ _ _ ?s) = _ =>
        destruct (upsertUser_store insertAccepts updateAccepts jsNow dbNow user s)
          as [K|[(_ & K)|(L' & _)]]; cbv zeta in *
    end.
    + exact K.
    + rewrite K. simpl. f_equal. rewrite map_app. simpl. f_equal.
      * apply FlowFacts.map_unchanged. intros u Iu.
        pose proof (proj1 (lookup_none _ _) L u Iu) as N.
        apply String.eqb_neq in N. now rewrite N.
      * rewrite Eo, String.eqb_refl. now rewrite <- En.
    + exfalso. rewrite lookup_after_insert, L, Eo, String.eqb_refl in L'.
      discriminate.
Qed.

End UsersFacts.
